(** * LegalLens front end: response normalisation and heuristic risks

    A shallow embedding of the response normaliser of
    [src/services/api.ts] ([splitIntoPoints], [normalizeSummarizeResponse],
    [normalizeRisksResponse]) and of the heuristic risk synthesiser of the
    dashboard page ([findKeywords], [severityForTag],
    [extractCitationFromText], [generateHeuristicRisks],
    [formatSummaryPoints]).

    Modelling conventions.
    - A decoded JSON payload has TypeScript type [any]; it is a [JValue].
      [JUndefined] is the value of a missing property.
    - A JavaScript number is a double.  The model covers the finite ones,
      each as the exact rational it denotes; a JSON literal beyond the range
      of the doubles, which [JSON.parse] reads as [Infinity], has no
      counterpart here.  [Math.round] of a finite double is exact.  The sums
      and the one division of the code are computed exactly in the model;
      the doubles give the same results while the integers involved stay
      in the safe range, which [Obs.safe_scores] states.  Theorems about an
      aggregate computed from arbitrary scores, and about numbers read from
      digit strings, assume that range.
    - A string is a sequence of 8-bit code units (the Latin-1 range).
    - A [TypeError] raised by the JavaScript runtime is the outcome
      [Throws]. *)

From Stdlib Require Import ZArith QArith Qround Qabs String Ascii List Bool Lia.
From Stdlib Require Import DecimalString DecimalNat.
From stdpp Require Import base list strings gmap.

Local Open Scope string_scope.

(** ** JavaScript values *)

Module Js.

#[warnings="-register-all"]
Inductive JValue : Type :=
| JUndefined
| JNull
| JBool (b : bool)
| JNum (q : Q)
| JStr (s : string)
| JArr (xs : list JValue)
| JObj (fields : list (string * JValue)).

(** An evaluation either returns a value or throws a [TypeError]. *)
Inductive outcome (A : Type) : Type :=
| Returns (a : A)
| Throws.
Arguments Returns {A} a.
Arguments Throws {A}.

Definition bind {A B} (m : outcome A) (k : A -> outcome B) : outcome B :=
  match m with
  | Returns a => k a
  | Throws => Throws
  end.

Notation "'let*' x ':=' m 'in' k" := (bind m (fun x => k))
  (at level 10, x name, m at level 100, k at level 200).
Notation "'let*' ' p ':=' m 'in' k" := (bind m (fun x => match x with p => k end))
  (at level 10, p strict pattern, m at level 100, k at level 200).

(** [arr.map(f)] for a callback that may throw; the callback receives the
    element and its index. *)
Fixpoint mapi_from {A B} (f : A -> nat -> outcome B) (i : nat) (l : list A)
  : outcome (list B) :=
  match l with
  | [] => Returns []
  | x :: r =>
      let* y := f x i in
      let* ys := mapi_from f (S i) r in
      Returns (y :: ys)
  end.

Definition mapi {A B} (f : A -> nat -> outcome B) (l : list A) : outcome (list B) :=
  mapi_from f 0 l.

(** [!v] is [negb (truthy v)]. *)
Definition truthy (v : JValue) : bool :=
  match v with
  | JUndefined | JNull => false
  | JBool b => b
  | JNum q => negb (Qeq_bool q 0)
  | JStr s => negb (String.eqb s "")
  | JArr _ | JObj _ => true
  end.

Definition nullish (v : JValue) : bool :=
  match v with
  | JUndefined | JNull => true
  | _ => false
  end.

(** [a ?? b].  Every right operand in the source is a property read on an
    object already known not to be nullish, or a literal, so it cannot
    throw and is passed as a value. *)
Definition coalesce (a b : JValue) : JValue :=
  if nullish a then b else a.

Infix "??" := coalesce (at level 60, right associativity).

Definition isArray (v : JValue) : bool :=
  match v with JArr _ => true | _ => false end.

Definition isString (v : JValue) : bool :=
  match v with JStr _ => true | _ => false end.

Definition isNumber (v : JValue) : bool :=
  match v with JNum _ => true | _ => false end.

Definition isBoolean (v : JValue) : bool :=
  match v with JBool _ => true | _ => false end.

(** [typeof v === 'object']: objects, arrays and [null]. *)
Definition typeofObject (v : JValue) : bool :=
  match v with JNull | JArr _ | JObj _ => true | _ => false end.

Fixpoint lookup_field (k : string) (fields : list (string * JValue)) : option JValue :=
  match fields with
  | [] => None
  | (k', v) :: r => if String.eqb k k' then Some v else lookup_field k r
  end.

(** [v.k] for [v] neither [null] nor [undefined].  The source reads only
    fixed field names, none of which is a built-in member of a string, a
    number, a boolean or an array, so the read gives [undefined] there. *)
Definition prop (v : JValue) (k : string) : JValue :=
  match v with
  | JObj fields => default JUndefined (lookup_field k fields)
  | _ => JUndefined
  end.

(** [v.k] for any [v]: reading a property of [null] or [undefined] throws. *)
Definition get (v : JValue) (k : string) : outcome JValue :=
  if nullish v then Throws else Returns (prop v k).

(** [k in v]: throws unless [v] is an object or an array. *)
Definition has_key (k : string) (v : JValue) : outcome bool :=
  match v with
  | JObj fields => Returns (bool_decide (is_Some (lookup_field k fields)))
  | JArr _ => Returns false
  | _ => Throws
  end.

(** [Object.values(v)] of an object, whose fields are listed in the
    enumeration order of the engine. *)
Definition objectValues (v : JValue) : list JValue :=
  match v with
  | JObj fields => map snd fields
  | JArr xs => xs
  | _ => []
  end.

(** [Math.round]: the nearest integer, ties towards +infinity. *)
Definition Math_round (q : Q) : Z := Qfloor (q + (1 # 2)).

Definition JInt (z : Z) : JValue := JNum (inject_Z z).

(** The decimal rendering of an array index inside a template string. *)
Definition string_of_nat (n : nat) : string :=
  NilZero.string_of_uint (Nat.to_uint n).

End Js.

(** ** String primitives *)

Module Str.

Definition chars (s : string) : list ascii := list_ascii_of_string s.
Definition str (l : list ascii) : string := string_of_list_ascii l.

(** [\s] and the characters removed by [trim()], in the Latin-1 range. *)
Definition is_space (c : ascii) : bool :=
  let n := nat_of_ascii c in
  ((9 <=? n) && (n <=? 13))%nat || (n =? 32)%nat || (n =? 160)%nat.

(** [[.?!]] *)
Definition is_terminator (c : ascii) : bool :=
  (Ascii.eqb c ".") || (Ascii.eqb c "?") || (Ascii.eqb c "!").

(** [[;,]] *)
Definition is_separator (c : ascii) : bool :=
  (Ascii.eqb c ";") || (Ascii.eqb c ",").

Fixpoint drop_space (l : list ascii) : list ascii :=
  match l with
  | c :: r => if is_space c then drop_space r else l
  | [] => []
  end.

Definition trim_chars (l : list ascii) : list ascii :=
  rev (drop_space (rev (drop_space l))).

Definition trim (s : string) : string := str (trim_chars (chars s)).

(** [s.split(/(?<=[.?!])\s+/)]: the string is cut at every maximal run of
    white space that follows a terminator; [cur] is the current fragment,
    reversed, and [skipping] says that a matched run is being consumed. *)
Fixpoint split_sentences_from (cur : list ascii) (skipping : bool) (l : list ascii)
  : list (list ascii) :=
  match l with
  | [] => [rev cur]
  | c :: r =>
      if is_space c then
        if skipping then split_sentences_from cur true r
        else
          match cur with
          | t :: _ =>
              if is_terminator t then rev cur :: split_sentences_from [] true r
              else split_sentences_from (c :: cur) false r
          | [] => split_sentences_from (c :: cur) false r
          end
      else split_sentences_from (c :: cur) false r
  end.

Definition split_sentences (s : string) : list string :=
  map str (split_sentences_from [] false (chars s)).

(** [s.split(/[;,]+/)] *)
Fixpoint split_separators_from (cur : list ascii) (skipping : bool) (l : list ascii)
  : list (list ascii) :=
  match l with
  | [] => [rev cur]
  | c :: r =>
      if is_separator c then
        if skipping then split_separators_from cur true r
        else rev cur :: split_separators_from [] true r
      else split_separators_from (c :: cur) false r
  end.

Definition split_separators (s : string) : list string :=
  map str (split_separators_from [] false (chars s)).

(** [s.replace(/\s+/g, ' ')] *)
Fixpoint collapse_space_from (skipping : bool) (l : list ascii) : list ascii :=
  match l with
  | [] => []
  | c :: r =>
      if is_space c then
        if skipping then collapse_space_from true r
        else " "%char :: collapse_space_from true r
      else c :: collapse_space_from false r
  end.

Definition collapse_space (s : string) : string :=
  str (collapse_space_from false (chars s)).

(** [Boolean(s)] for a string. *)
Definition nonempty (s : string) : bool := negb (String.eqb s "").

(** [s.slice(0, n)] and [s.substring(0, n)] for [n >= 0]. *)
Definition slice0 (n : nat) (s : string) : string := str (take n (chars s)).

(** [s.slice(i, i + n)] *)
Definition slice (i n : nat) (s : string) : string := str (take n (drop i (chars s))).

(** [s.toLowerCase()] on Latin-1 code units. *)
Definition lower_char (c : ascii) : ascii :=
  let n := nat_of_ascii c in
  if ((65 <=? n) && (n <=? 90))%nat
     || ((192 <=? n) && (n <=? 222) && negb (n =? 215))%nat
  then ascii_of_nat (n + 32) else c.

Definition toLowerCase (s : string) : string := str (map lower_char (chars s)).

Fixpoint is_prefix (w l : list ascii) : bool :=
  match w, l with
  | [], _ => true
  | _ :: _, [] => false
  | a :: w', b :: l' => Ascii.eqb a b && is_prefix w' l'
  end.

Fixpoint includes_chars (w l : list ascii) : bool :=
  is_prefix w l ||
  match l with
  | [] => false
  | _ :: r => includes_chars w r
  end.

(** [s.includes(w)] *)
Definition includes (s w : string) : bool := includes_chars (chars w) (chars s).

(** [s.replace('_', ' ')]: only the first underscore is replaced. *)
Fixpoint replace_first_underscore (l : list ascii) : list ascii :=
  match l with
  | [] => []
  | c :: r => if Ascii.eqb c "_" then " "%char :: r else c :: replace_first_underscore r
  end.

Definition replace_underscore (s : string) : string :=
  str (replace_first_underscore (chars s)).

End Str.

(** ** The service layer, [src/services/api.ts] *)

Module Api.
Import Js.

(** *** Types *)

(** [RiskItem]: fields a payload passes through keep their dynamic type;
    [severity_score] is always the result of [Math.round] or one of the
    constants 85, 50 and 15. *)
Record RiskItem : Type := mkRiskItem {
  id : JValue;
  provided_severity : JValue;
  severity_level : JValue;
  severity_score : Z;
  snippet : JValue;
  label : JValue;
  short_risk : JValue;
  explanation : JValue;
  recommendations : JValue;
  citation : JValue
}.

Record Counts : Type := mkCounts { high : nat; medium : nat; low : nat }.

Record DocumentLevel : Type := mkDocumentLevel {
  computed_risk_score : Z;
  risk_tier : string;
  counts : Counts
}.

(** [RisksResponse]; a [document_level] taken from the payload is kept as
    it came. *)
Record RisksResponse : Type := mkRisksResponse {
  risks : list RiskItem;
  document_level : JValue
}.

(** The objects these records stand for. *)
Definition Counts_js (c : Counts) : JValue :=
  JObj [("high", JInt (Z.of_nat (high c)));
        ("medium", JInt (Z.of_nat (medium c)));
        ("low", JInt (Z.of_nat (low c)))].

Definition DocumentLevel_js (d : DocumentLevel) : JValue :=
  JObj [("computed_risk_score", JInt (computed_risk_score d));
        ("risk_tier", JStr (risk_tier d));
        ("counts", Counts_js (counts d))].

Definition RiskItem_js (r : RiskItem) : JValue :=
  JObj [("id", id r);
        ("provided_severity", provided_severity r);
        ("severity_level", severity_level r);
        ("severity_score", JInt (severity_score r));
        ("snippet", snippet r);
        ("label", label r);
        ("short_risk", short_risk r);
        ("explanation", explanation r);
        ("recommendations", recommendations r);
        ("citation", citation r)].

Definition RisksResponse_js (v : RisksResponse) : JValue :=
  JObj [("risks", JArr (map RiskItem_js (risks v)));
        ("document_level", document_level v)].

(** *** Helpers *)

Definition cleanup (s : string) : string := Str.trim (Str.collapse_space s).

(** [splitIntoPoints(summary, maxPoints = 10)].  Callers pass [raw.summary]
    after a truthiness test only, so the argument is any value; a truthy
    value that is not a string has no [split] method. *)
Definition splitIntoPoints (summary : JValue) (maxPoints : nat) : outcome (list string) :=
  if negb (truthy summary) then Returns []
  else
    match summary with
    | JStr s =>
        let sentences :=
          List.filter (fun f => (10 <? String.length f)%nat)
                      (map Str.trim (Str.split_sentences s)) in
        if (1 <? length sentences)%nat
        then Returns (map cleanup (take maxPoints sentences))
        else
          let parts :=
            List.filter Str.nonempty (map Str.trim (Str.split_separators s)) in
          if (1 <? length parts)%nat
          then Returns (map cleanup (take maxPoints parts))
          else Returns [Str.trim s]
    | _ => Throws
    end.

Definition points_js (pts : list string) : JValue := JArr (map JStr pts).

(** *** [normalizeSummarizeResponse] *)

Definition normalizeSummarizeResponse (raw : JValue) : outcome JValue :=
  if negb (truthy raw) then
    Returns (JObj [("executive_summary", JStr "");
                   ("points", JArr []);
                   ("key_clauses", JArr []);
                   ("fallback", JBool true)])
  else if truthy (prop raw "executive_summary") || isArray (prop raw "points") then
    let* points :=
      if isArray (prop raw "points") then Returns (prop raw "points")
      else if isString (prop raw "points") then Returns (JArr [prop raw "points"])
      else if truthy (prop raw "summary")
           then let* pts := splitIntoPoints (prop raw "summary") 10 in
                Returns (points_js pts)
           else Returns (JArr []) in
    Returns (JObj [
      ("doc_id", prop raw "doc_id");
      ("executive_summary",
         prop raw "executive_summary" ??
           (if isString (prop raw "summary") then prop raw "summary" else JStr ""));
      ("points", points);
      ("key_clauses",
         if truthy (prop raw "key_clauses" ??
                      JBool (match prop raw "key_clauses" with JNull => true | _ => false end))
         then JArr [] else JArr []);
      ("purpose", prop raw "purpose" ?? prop raw "document_purpose" ?? JNull);
      ("rag_corpus", prop raw "rag_corpus" ?? prop raw "corpus_name" ?? JNull);
      ("fallback",
         if isBoolean (prop raw "fallback") then prop raw "fallback" else JBool false);
      ("debug", prop raw "debug" ?? JUndefined);
      ("summary", prop raw "summary" ?? prop raw "executive_summary" ?? JUndefined)])
  else if isString (prop raw "summary") then
    let* pts := splitIntoPoints (prop raw "summary") 10 in
    Returns (JObj [
      ("doc_id", prop raw "doc_id");
      ("executive_summary", prop raw "summary");
      ("points", points_js pts);
      ("key_clauses", JArr []);
      ("purpose", prop raw "purpose" ?? JNull);
      ("rag_corpus", prop raw "rag_corpus" ?? prop raw "corpus_name" ?? JNull);
      ("fallback", JBool (truthy (prop raw "fallback")));
      ("debug", prop raw "debug" ?? JUndefined);
      ("summary", prop raw "summary")])
  else if isString raw then
    let* pts := splitIntoPoints raw 10 in
    Returns (JObj [
      ("executive_summary", raw);
      ("points", points_js pts);
      ("key_clauses", JArr []);
      ("fallback", JBool true);
      ("summary", raw)])
  else
    let* points :=
      if nullish (prop raw "points") then
        if truthy (prop raw "summary")
        then let* pts := splitIntoPoints (prop raw "summary") 10 in
             Returns (points_js pts)
        else Returns (JArr [])
      else Returns (prop raw "points") in
    Returns (JObj [
      ("executive_summary", prop raw "executive_summary" ?? prop raw "summary" ?? JStr "");
      ("points", points);
      ("key_clauses", prop raw "key_clauses" ?? JArr []);
      ("purpose", prop raw "purpose" ?? JNull);
      ("rag_corpus", prop raw "rag_corpus" ?? JNull);
      ("fallback", JBool (truthy (prop raw "fallback")));
      ("summary", prop raw "summary" ?? JUndefined)]).

(** *** [normalizeRisksResponse] *)

(** The score standing for a severity label (lines 192-197). *)
Definition scoreOfLabel (provided : JValue) : Z :=
  match provided with
  | JStr s =>
      let p := Str.toLowerCase s in
      if Str.includes p "high" then 85
      else if Str.includes p "medium" then 50
      else 15
  | _ => 15
  end%Z.

(** The callback of [arr.map] (lines 185-212).  Its first step reads
    [r.provided_severity], which throws when [r] is [null]; after it every
    read of [r] succeeds. *)
Definition mapRisk (r : JValue) (i : nat) : outcome RiskItem :=
  let* ps := get r "provided_severity" in
  let provided := ps ?? prop r "severity_level" ?? JStr "Low" in
  let numeric :=
    match prop r "severity_score" with
    | JNum q => Math_round q
    | _ => scoreOfLabel provided
    end in
  Returns {|
    id := prop r "id" ?? JStr ("risk-" ++ string_of_nat i);
    provided_severity := provided;
    severity_level := prop r "severity_level" ?? provided;
    severity_score := numeric;
    snippet := prop r "snippet" ?? prop r "text" ?? prop r "originalText" ?? JStr "";
    label := prop r "label" ?? JUndefined;
    short_risk :=
      prop r "short_risk" ?? prop r "title" ??
        (if isString (prop r "label") then prop r "label"
         else prop r "short_risk" ?? JStr "Potential risk");
    explanation := prop r "explanation" ?? prop r "reason" ?? prop r "why" ?? JStr "";
    recommendations :=
      if isArray (prop r "recommendations") then prop r "recommendations"
      else if truthy (prop r "recs") then prop r "recs" else JArr [];
    citation :=
      prop r "citation" ??
        JObj [("page", prop r "page" ?? JNull);
              ("start", prop r "start" ?? JNull);
              ("end", prop r "end" ?? JNull)]
  |}.

(** The counting loop [risks.forEach(...)] (lines 220-224). *)
Definition count_step (c : Counts) (score : Z) : Counts :=
  if (67 <=? score)%Z then mkCounts (S (high c)) (medium c) (low c)
  else if (34 <=? score)%Z then mkCounts (high c) (S (medium c)) (low c)
  else mkCounts (high c) (medium c) (S (low c)).

Definition tierOf (score : Z) : string :=
  if (score <=? 33)%Z then "Low" else if (score <=? 66)%Z then "Medium" else "High".

(** The aggregate computed from the scores (lines 216-226); the dashboard
    repeats the same statements for the synthesised items.  The sum and the
    quotient are computed exactly: this is the result of the code for scores
    in the safe range ([Obs.safe_scores]), the only ones for which the
    theorems on arbitrary scores are stated. *)
Definition computeDocumentLevel (numericArr : list Z) : DocumentLevel :=
  let sum := fold_left Z.add numericArr 0%Z in
  let computed_risk_score :=
    match length numericArr with
    | O => 0%Z
    | n => Math_round (inject_Z sum / inject_Z (Z.of_nat n))
    end in
  let counts := fold_left count_step numericArr (mkCounts 0 0 0) in
  mkDocumentLevel computed_risk_score (tierOf computed_risk_score) counts.

Definition empty : RisksResponse :=
  mkRisksResponse [] (DocumentLevel_js (mkDocumentLevel 0 "Low" (mkCounts 0 0 0))).

Definition elements (v : JValue) : list JValue :=
  match v with JArr xs => xs | _ => [] end.

(** The aggregate found in the payload, with the items left in [arr]
    (lines 171-182). *)
Definition extractDocumentLevel (raw : JValue) : outcome (list JValue * JValue) :=
  let arr := if isArray raw then elements raw else elements (prop raw "risks") in
  let* sentinel :=
    match last arr with
    | Some l =>
        if typeofObject l then has_key "document_level" l else Returns false
    | None => Returns false
    end in
  if sentinel then
    Returns (removelast arr, prop (default JUndefined (last arr)) "document_level")
  else if truthy (prop raw "document_level") then
    Returns (if isArray (prop raw "risks") then elements (prop raw "risks") else arr,
             prop raw "document_level")
  else Returns (arr, JUndefined).

(** One unfolding of the function; [self] is the recursive call. *)
Definition normalizeRisksResponse_body
    (self : JValue -> outcome RisksResponse) (raw : JValue) : outcome RisksResponse :=
  if negb (truthy raw) then Returns empty
  else if isArray (prop raw "risks") || isArray raw then
    let* '(arr, document_level) := extractDocumentLevel raw in
    let* risks := mapi mapRisk arr in
    if negb (truthy document_level) then
      Returns (mkRisksResponse risks
                 (DocumentLevel_js (computeDocumentLevel (map severity_score risks))))
    else Returns (mkRisksResponse risks document_level)
  else if truthy (prop raw "risks") && typeofObject (prop raw "risks")
          && negb (isArray (prop raw "risks")) then
    self (JArr (objectValues (prop raw "risks")))
  else Returns empty.

(** The recursive call receives an array, which the first branch handles
    without recursion; two unfoldings are the whole function. *)
Definition normalizeRisksResponse (raw : JValue) : outcome RisksResponse :=
  normalizeRisksResponse_body
    (normalizeRisksResponse_body (fun _ => Throws)) raw.

End Api.

(** ** The dashboard page: heuristic risks and summary points *)

Module Dashboard.
Import Js Api.

(** *** [extractCitationFromText] *)

Definition is_digit (c : ascii) : bool :=
  let n := nat_of_ascii c in ((48 <=? n) && (n <=? 57))%nat.

(** The longest prefix of digits, and what follows it. *)
Fixpoint span_digits (l : list ascii) : list ascii * list ascii :=
  match l with
  | c :: r =>
      if is_digit c then let '(d, rest) := span_digits r in (c :: d, rest)
      else ([], l)
  | [] => ([], [])
  end.

(** [/\[(\d+):(\d+)\]/] matched at the head of [l]: the two groups. *)
Definition match_citation_here (l : list ascii) : option (list ascii * list ascii) :=
  match l with
  | c :: r =>
      if Ascii.eqb c "[" then
        match span_digits r with
        | ((_ :: _) as d1, c1 :: r1) =>
            if Ascii.eqb c1 ":" then
              match span_digits r1 with
              | ((_ :: _) as d2, c2 :: _) =>
                  if Ascii.eqb c2 "]" then Some (d1, d2) else None
              | _ => None
              end
            else None
        | _ => None
        end
      else None
  | [] => None
  end.

(** [text.match(...)]: the leftmost match. *)
Fixpoint match_citation (l : list ascii) : option (list ascii * list ascii) :=
  match match_citation_here l with
  | Some m => Some m
  | None =>
      match l with
      | [] => None
      | _ :: r => match_citation r
      end
  end.

(** [Number(m[k])] for a group of decimal digits: the integer the digits
    denote, which is what [Number] returns while that integer is below
    2^53. *)
Definition number_of_digits (d : list ascii) : Z :=
  fold_left (fun acc c => (10 * acc + Z.of_nat (nat_of_ascii c - 48))%Z) d 0%Z.

Definition no_citation : JValue :=
  JObj [("page", JNull); ("start", JNull); ("end", JNull)].

Definition extractCitationFromText (text : string) : JValue :=
  if negb (Str.nonempty text) then no_citation
  else
    match match_citation (Str.chars text) with
    | Some (d1, d2) =>
        JObj [("page", JNull);
              ("start", JInt (number_of_digits d1));
              ("end", JInt (number_of_digits d2))]
    | None => no_citation
    end.

(** *** [findKeywords] *)

Definition kws : list (string * list string) :=
  [("eviction", ["evict"; "eviction"; "forfeit"; "forfeiture"]);
   ("late_payment", ["late"; "late payment"; "interest"; "grace period"; "penalty"]);
   ("deposit", ["deposit"; "security deposit"]);
   ("termination", ["terminate"; "termination"; "notice"; "early termination"]);
   ("subletting", ["sublet"; "subletting"; "sub-lett"]);
   ("utilities", ["utility"; "electric"; "water"; "gas"; "internet"]);
   ("maintenance", ["maintain"; "repair"; "responsible for"; "care of the property"])].

(** The inner [for (const w of words)] loop with its [break]. *)
Fixpoint any_word (low : string) (words : list string) : bool :=
  match words with
  | [] => false
  | w :: r => if Str.includes low w then true else any_word low r
  end.

(** [Array.from(new Set(found))]: the first occurrence of each element. *)
Fixpoint unique (seen : list string) (l : list string) : list string :=
  match l with
  | [] => []
  | x :: r =>
      if bool_decide (x ∈ seen) then unique seen r else x :: unique (x :: seen) r
  end.

Definition findKeywords (text : string) : list string :=
  let low := Str.toLowerCase text in
  let found :=
    fold_left (fun found '(tag, words) =>
                 if any_word low words then (found ++ [tag])%list else found)
              kws [] in
  unique [] found.

(** *** [severityForTag] *)

Definition severityForTag (tag : string) : string * Z :=
  (if String.eqb tag "eviction" then ("High", 85)
   else if String.eqb tag "late_payment" then ("Medium", 55)
   else if String.eqb tag "deposit" then ("Medium", 50)
   else if String.eqb tag "termination" then ("Medium", 60)
   else if String.eqb tag "subletting" then ("Low", 30)
   else if String.eqb tag "utilities" then ("Low", 25)
   else if String.eqb tag "maintenance" then ("Low", 28)
   else ("Low", 20))%Z.

(** *** [generateHeuristicRisks] *)

Definition strings_js (l : list string) : JValue := JArr (map JStr l).

(** The double quote of the two explanation templates. *)
Definition dquote : string := String (ascii_of_nat 34) EmptyString.

(** The item pushed for a category found in the whole summary (lines
    186-202); a synthesised item has no [severity_level]. *)
Definition summaryItem (summaryText tag : string) : RiskItem :=
  let '(sev_label, sev_score) := severityForTag tag in
  {| id := JStr ("heuristic-" ++ tag);
     provided_severity := JStr sev_label;
     severity_level := JUndefined;
     severity_score := sev_score;
     snippet := JStr (Str.slice0 300 summaryText);
     label := JStr (Str.replace_underscore tag);
     short_risk := JStr ("Possible " ++ Str.replace_underscore tag ++ " clause identified.");
     explanation :=
       JStr ("The document language includes terms related to " ++ dquote
             ++ Str.replace_underscore tag ++ dquote
             ++ " which may expose the resident to "
             ++ Str.toLowerCase sev_label ++ " risk.");
     recommendations :=
       if String.eqb tag "eviction"
       then strings_js ["Clarify eviction conditions and notice periods in writing.";
                        "Include tenant remedy steps before eviction."]
       else strings_js ["Review clause with legal counsel.";
                        "Consider negotiating clearer terms."];
     citation := extractCitationFromText summaryText |}.

(** The item pushed for a category found in point [i] (lines 215-231). *)
Definition pointItem (i : nat) (pt tag : string) : RiskItem :=
  let '(sev_label, sev_score) := severityForTag tag in
  {| id := JStr ("heuristic-point-" ++ string_of_nat i ++ "-" ++ tag);
     provided_severity := JStr sev_label;
     severity_level := JUndefined;
     severity_score := sev_score;
     snippet := JStr pt;
     label := JStr (Str.slice0 60 pt);
     short_risk :=
       JStr (if (80 <? String.length pt)%nat then Str.slice0 80 pt ++ "..." else pt);
     explanation :=
       JStr ("Point mentions " ++ dquote ++ Str.replace_underscore tag ++ dquote
             ++ " which can create " ++ Str.toLowerCase sev_label
             ++ " risk if not clarified.");
     recommendations :=
       if String.eqb tag "late_payment"
       then strings_js ["Add explicit grace period and late fee caps.";
                        "Specify notification process for late payments."]
       else strings_js ["Clarify and limit the clause where possible.";
                        "Document exceptions and notice periods."];
     citation := extractCitationFromText pt |}.

(** The item pushed when nothing was found (lines 239-249). *)
Definition genericItem (summaryText : string) (points : list string) : RiskItem :=
  {| id := JStr "heuristic-none";
     provided_severity := JStr "Low";
     severity_level := JUndefined;
     severity_score := 10;
     snippet :=
       JStr (if Str.nonempty summaryText then summaryText else default "" (head points));
     label := JStr "No obvious high-risk clauses detected";
     short_risk := JStr "No explicit risky clauses found — manual review recommended.";
     explanation :=
       JStr "Automated scan did not find typical risk keywords; still recommend human review for context-specific risk.";
     recommendations :=
       strings_js ["Have a lawyer review for context-specific liabilities";
                   "Check payment and termination sections closely"];
     citation := extractCitationFromText summaryText |}.

(** The two mutable locals of the function: [risks] and [usedTags]. *)
Definition state : Type := list RiskItem * gset string.

(** The body of [tags.forEach] in either scan: push unless the tag was
    used, then mark it used. *)
Definition visit (item : string -> RiskItem) (st : state) (tag : string) : state :=
  if bool_decide (tag ∈ st.2) then st
  else ((st.1 ++ [item tag])%list, {[tag]} ∪ st.2).

Definition scanSummary (summaryText : string) (st : state) : state :=
  if Str.nonempty summaryText
  then fold_left (visit (summaryItem summaryText)) (findKeywords summaryText) st
  else st.

(** [for (let i = 0; i < points.length && risks.length < 8; i++)] *)
Fixpoint scanPoints (i : nat) (points : list string) (st : state) : state :=
  match points with
  | [] => st
  | pt :: rest =>
      if (length st.1 <? 8)%nat
      then scanPoints (S i) rest (fold_left (visit (pointItem i pt)) (findKeywords pt) st)
      else st
  end.

Definition generateHeuristicRisks (summaryText : string) (points : list string)
  : RisksResponse :=
  let st := scanPoints 0 points (scanSummary summaryText ([], ∅)) in
  let risks :=
    match st.1 with
    | [] => [genericItem summaryText points]
    | _ => st.1
    end in
  mkRisksResponse risks
    (DocumentLevel_js (computeDocumentLevel (map severity_score risks))).

(** *** [formatSummaryPoints] *)

(** The chunking loop; [room] is how many chunks may still be pushed. *)
Fixpoint chunk_loop (room i : nat) (summary : string) : list string :=
  match room with
  | O => []
  | S room' =>
      if (i <? String.length summary)%nat
      then Str.trim (Str.slice i 120 summary) :: chunk_loop room' (i + 120) summary
      else []
  end.

Definition formatSummaryPoints (summary : string) : list string :=
  if negb (Str.nonempty summary) then []
  else
    let sentences :=
      List.filter Str.nonempty (map Str.trim (Str.split_sentences summary)) in
    if (2 <=? length sentences)%nat then take 12 sentences
    else
      let parts :=
        List.filter Str.nonempty (map Str.trim (Str.split_separators summary)) in
      if (2 <=? length parts)%nat then take 12 parts
      else chunk_loop 12 0 summary.

End Dashboard.

(** ** Observations used by the statements *)

Module Obs.
Import Js Api Dashboard.

(** The payload whose elements are the candidate risk objects: the payload
    itself when it is, or carries, an array, and otherwise the values of
    its [risks] map (none when there is no such map). *)
Definition listPayload (raw : JValue) : JValue :=
  if isArray (prop raw "risks") || isArray raw then raw
  else JArr (objectValues (prop raw "risks")).

(** The candidate risk objects of a payload, in order. *)
Definition candidates (raw : JValue) : list JValue :=
  match extractDocumentLevel (listPayload raw) with
  | Returns (arr, _) => arr
  | Throws => []
  end.

(** The aggregate the payload supplies, [undefined] when it supplies none. *)
Definition suppliedAggregate (raw : JValue) : JValue :=
  match extractDocumentLevel (listPayload raw) with
  | Returns (_, dl) => dl
  | Throws => JUndefined
  end.

(** The array branch of [normalizeRisksResponse] on its own. *)
Definition normalizeList (payload : JValue) : outcome RisksResponse :=
  let* '(arr, document_level) := extractDocumentLevel payload in
  let* risks := mapi mapRisk arr in
  Returns (mkRisksResponse risks
             (if truthy document_level then document_level
              else DocumentLevel_js (computeDocumentLevel (map severity_score risks)))).

(** The severity label of a candidate risk object. *)
Definition labelOf (r : JValue) : JValue :=
  prop r "provided_severity" ?? prop r "severity_level" ?? JStr "Low".

(** The mathematical sum of a list of scores. *)
Definition total (scores : list Z) : Z := fold_right Z.add 0%Z scores.

(** Sample payloads: two risk objects without aggregate, one risk object
    with a score outside 0-100, and one with a textual [recs]. *)
Definition sampleRisks : JValue :=
  JArr [JObj [("severity_score", JNum 90)];
        JObj [("provided_severity", JStr "Medium")]].

Definition sampleAssessment : RisksResponse :=
  Eval vm_compute in
    match normalizeRisksResponse sampleRisks with
    | Returns v => v
    | Throws => empty
    end.

Definition overflowRisks : JValue := JArr [JObj [("severity_score", JNum 150)]].

Definition recsRisks : JValue := JArr [JObj [("recs", JStr "see a lawyer")]].

(** Sample summary payloads. *)
Definition structuredSummary : JValue :=
  JObj [("executive_summary", JStr "A twelve month lease.");
        ("key_clauses", JArr [JObj [("title", JStr "Rent"); ("text", JStr "Due monthly.");
                                    ("importance", JNum 3)]])].

Definition legacySummary : JValue :=
  JObj [("summary",
         JStr "Tenant must pay rent by the 1st. Late fees apply after a 5-day grace period. Deposit is non-refundable.")].

(** A summary of 300 letters without punctuation or white space. *)
Definition longWord : string := Str.str (repeat "a"%char 300).

(** The ladder for a legacy summary as the specification words it:
    sentence fragments, those under 10 characters discarded, up to 10 of
    them when there are at least 2; else the fragments between commas and
    semicolons, up to 10 when there are at least 2; else windows of 120
    characters, up to 12. *)
Fixpoint windows (room i : nat) (summary : string) : list string :=
  match room with
  | O => []
  | S room' =>
      if (i <? String.length summary)%nat
      then Str.slice i 120 summary :: windows room' (i + 120) summary
      else []
  end.

Definition ladderPoints (summary : string) : list string :=
  let sentences :=
    List.filter (fun f => (10 <=? String.length f)%nat) (Str.split_sentences summary) in
  if (2 <=? length sentences)%nat then take 10 sentences
  else
    let parts := Str.split_separators summary in
    if (2 <=? length parts)%nat then take 10 parts
    else windows 12 0 summary.

(** The facts about an item that the item callback establishes. *)
Definition settled (item : RiskItem) : Prop :=
  nullish (id item) = false /\
  nullish (provided_severity item) = false /\
  nullish (severity_level item) = false /\
  nullish (snippet item) = false /\
  label item ?? JUndefined = label item /\
  nullish (short_risk item) = false /\
  nullish (explanation item) = false /\
  nullish (citation item) = false.

(** The documented range of a severity score. *)
Definition in_range (z : Z) : Prop := (0 <= z <= 100)%Z.

(** The three severity bands of the counts. *)
Definition is_high (s : Z) : bool := (67 <=? s)%Z.
Definition is_medium (s : Z) : bool := (34 <=? s)%Z && (s <=? 66)%Z.
Definition is_low (s : Z) : bool := (s <=? 33)%Z.

(** The structured branch of [normalizeSummarizeResponse] is taken. *)
Definition structured (raw : JValue) : bool :=
  truthy raw && (truthy (prop raw "executive_summary") || isArray (prop raw "points")).

(** The legacy branch of [normalizeSummarizeResponse] is taken. *)
Definition legacy (raw : JValue) : bool :=
  truthy raw && negb (structured raw) && isString (prop raw "summary").

Definition is_dash (c : ascii) : bool := Ascii.eqb c "-".

(** What follows the last dash of an identifier. *)
Fixpoint after_last_dash (l : list ascii) : list ascii :=
  match l with
  | [] => []
  | c :: r =>
      if existsb is_dash r then after_last_dash r
      else if is_dash c then r else l
  end.

(** The keyword category a synthesised item stands for, read off its
    identifier [heuristic-<tag>] or [heuristic-point-<i>-<tag>]. *)
Definition category_of (r : RiskItem) : string :=
  match id r with
  | JStr s => Str.str (after_last_dash (Str.chars s))
  | _ => ""
  end.

(** The range in which the arithmetic of the doubles is that of the
    integers: an array has fewer than 2^32 elements, and the magnitudes of
    the scores add up to less than 2^52.  Every partial sum of the scores is
    then an integer below 2^53, so each addition is exact
    ([partial_sums_safe]), and the correctly rounded quotient of the sum by
    the length rounds to the same integer as the exact quotient
    ([Math_round_of_rounded_quotient]). *)
Definition magnitude (scores : list Z) : Z :=
  fold_right (fun s acc => (Z.abs s + acc)%Z) 0%Z scores.

Definition safe_scores (scores : list Z) : Prop :=
  (Z.of_nat (length scores) < 2 ^ 32)%Z /\ (magnitude scores < 2 ^ 52)%Z.

Definition dashless (tag : string) : Prop := existsb is_dash (Str.chars tag) = false.

(** The invariant of the two scans of the synthesiser: the categories of
    the pushed items are pairwise distinct and all marked as used. *)
Definition exclusive (st : state) : Prop :=
  NoDup (map category_of st.1) /\ (forall c, c ∈ map category_of st.1 -> c ∈ st.2).

End Obs.
(** ** The remaining logic of the service layer *)

Module Service.
Import Js Api.

(** [obj.k = v] on an ordinary object: an own property keeps its place,
    a new one is added last. *)
Fixpoint set_field (k : string) (v : JValue) (fields : list (string * JValue))
  : list (string * JValue) :=
  match fields with
  | [] => [(k, v)]
  | (k', v') :: r =>
      if String.eqb k k' then (k, v) :: r else (k', v') :: set_field k v r
  end.

Definition assign (o : JValue) (k : string) (v : JValue) : JValue :=
  match o with
  | JObj fields => JObj (set_field k v fields)
  | _ => o
  end.

Section Decoding.

(** [JSON.parse], which throws on text that is not JSON. *)
Variable JSON_parse : string -> option JValue.

(** [safeJsonParse] (lines 81-87). *)
Definition safeJsonParse (text : string) : JValue :=
  match JSON_parse text with
  | Some v => v
  | None => JNull
  end.

(** The value [requestRaw] resolves to for a successful response with
    body [text] (lines 279-280). *)
Definition decodeBody (text : string) : JValue :=
  let parsed := safeJsonParse text in
  match parsed with
  | JNull => JStr text
  | _ => parsed
  end.

End Decoding.

(** [if (!normalized.doc_id && raw && raw.doc_id) normalized.doc_id =
    raw.doc_id] (lines 318 and 336). *)
Definition attachDocId (normalized raw : JValue) : JValue :=
  if negb (truthy (prop normalized "doc_id")) && truthy raw && truthy (prop raw "doc_id")
  then assign normalized "doc_id" (prop raw "doc_id")
  else normalized.

(** What [summarize] resolves to, given the decoded response (lines
    316-319). *)
Definition summarizeResult (raw : JValue) : outcome JValue :=
  let* normalized := normalizeSummarizeResponse raw in
  Returns (attachDocId normalized raw).

(** What [getRisks] resolves to, given the decoded response (lines
    334-337). *)
Definition getRisksResult (raw : JValue) : outcome JValue :=
  let* normalized := normalizeRisksResponse raw in
  Returns (attachDocId (RisksResponse_js normalized) raw).

(** [ensureApiInterval] (lines 247-255) over an explicit clock: [now] is
    the first reading of [Date.now()], and [lateness] is how long after the
    earliest possible moment the method resumes and reads the clock again.
    The result is the new [lastApiCallTime]. *)
Definition MIN_API_INTERVAL : Z := 1000.

Definition ensureApiInterval (lastApiCallTime now lateness : Z) : Z :=
  let timeSinceLastCall := (now - lastApiCallTime)%Z in
  if (timeSinceLastCall <? MIN_API_INTERVAL)%Z then
    let waitTime := (MIN_API_INTERVAL - timeSinceLastCall)%Z in
    (now + waitTime + lateness)%Z
  else (now + lateness)%Z.

(** The call times recorded by a sequence of calls, made one after the
    other; each call is given by its two clock parameters. *)
Fixpoint callTimes (lastApiCallTime : Z) (calls : list (Z * Z)) : list Z :=
  match calls with
  | [] => []
  | (now, lateness) :: rest =>
      let t := ensureApiInterval lastApiCallTime now lateness in
      t :: callTimes t rest
  end.

End Service.

(** ** The gauge component *)

Module Gauge.

Definition Math_min (a b : Q) : Q := if Qle_bool a b then a else b.
Definition Math_max (a b : Q) : Q := if Qle_bool b a then a else b.

(** [progress] (line 11). *)
Definition progress (score : Q) : Q := Math_max 0 (Math_min 100 score).

(** [getStrokeColor] (lines 14-18). *)
Definition getStrokeColor (score : Q) : string :=
  if Qle_bool score 33 then "#10B981"
  else if Qle_bool score 66 then "#F59E0B"
  else "#EF4444".

End Gauge.

(** ** The display logic of the dashboard page *)

Module Display.
Import Js Api Dashboard.

(** [getTier] (lines 432-436): tier, text class and background class. *)
Definition getTier (score : Q) : string * string * string :=
  if Qle_bool score 33 then ("Low", "text-neon-green", "bg-neon-green/10")
  else if Qle_bool score 66 then ("Medium", "text-risk-medium", "bg-risk-medium/10")
  else ("High", "text-risk-high", "bg-risk-high/10").

(** [severityColor] (lines 462-466): text class and background class. *)
Definition severityColor (score : Q) : string * string :=
  if Qle_bool score 33 then ("text-neon-green", "bg-neon-green/10")
  else if Qle_bool score 66 then ("text-risk-medium", "bg-risk-medium/10")
  else ("text-risk-high", "bg-risk-high/10").

(** [toggleFlag] (lines 439-441), the state update it passes to
    [setExpandedFlags]. *)
Definition toggleFlag (flagId : string) (prev : list string) : list string :=
  if bool_decide (flagId ∈ prev)
  then List.filter (fun id => negb (String.eqb id flagId)) prev
  else (prev ++ [flagId])%list.

(** [documentLevelScore] (line 423): [?.] stops at a missing aggregate. *)
Definition documentLevelScore (risksResponse : RisksResponse) : JValue :=
  (if nullish (document_level risksResponse) then JUndefined
   else prop (document_level risksResponse) "computed_risk_score") ?? JNull.

(** [computedScoreFromRisks] (lines 424-429), with the sum and the quotient
    computed exactly (see [Obs.safe_scores]). *)
Definition computedScoreFromRisks (risksResponse : RisksResponse) : Z :=
  let arr := risks risksResponse in
  match length arr with
  | O => 0%Z
  | n =>
      let nums := map severity_score arr in
      Math_round (inject_Z (fold_left Z.add nums 0%Z) / inject_Z (Z.of_nat n))
  end.

(** [riskScore] (line 430). *)
Definition riskScore (risksResponse : RisksResponse) : JValue :=
  match documentLevelScore risksResponse with
  | JNull => JInt (computedScoreFromRisks risksResponse)
  | score => score
  end.

Section SummaryView.

Variable JSON_parse : string -> option JValue.

(** [String(v)], reached only for a truthy value that is not a string. *)
Variable String_of : JValue -> string.

Definition startsWith (s : string) (c : ascii) : bool :=
  match s with
  | String c' _ => Ascii.eqb c' c
  | EmptyString => false
  end.

(** [safeParsePossibleJsonString] (lines 117-126). *)
Definition safeParsePossibleJsonString (s : JValue) : JValue :=
  match s with
  | JStr text =>
      let trimmed := Str.trim text in
      if negb (startsWith trimmed "{") && negb (startsWith trimmed "[") then s
      else
        match JSON_parse trimmed with
        | Some v => v
        | None => s
        end
  | _ => s
  end.

(** The summary object [loadDocumentData] stores (lines 297-316), given
    what [summarize] resolved to. *)
Definition summaryView (summaryRespRaw : JValue) : outcome JValue :=
  let* es := get summaryRespRaw "executive_summary" in
  let raw := summaryRespRaw in
  let execCandidate := safeParsePossibleJsonString (es ?? prop raw "summary" ?? JNull) in
  let executive_summary :=
    if isString execCandidate then execCandidate
    else if isString (prop raw "executive_summary") then prop raw "executive_summary"
    else JStr "" in
  let points :=
    if isArray (prop raw "key_points") then prop raw "key_points"
    else if isArray (prop raw "points") then prop raw "points"
    else if isString (prop raw "summary")
         then match prop raw "summary" with
              | JStr s => strings_js (formatSummaryPoints s)
              | _ => JArr []
              end
         else JArr [] in
  let executive_summary :=
    if negb (isString executive_summary) && truthy executive_summary
    then JStr (String_of executive_summary) else executive_summary in
  Returns (JObj [
    ("doc_id", prop raw "doc_id" ?? prop raw "docId");
    ("executive_summary", executive_summary);
    ("points", points);
    ("key_clauses", prop raw "key_clauses" ?? prop raw "key_clauses" ?? JArr []);
    ("purpose", prop raw "purpose" ?? JUndefined);
    ("rag_corpus", prop raw "rag_corpus" ?? JNull);
    ("fallback", JBool (truthy (prop raw "fallback")));
    ("summary", if isString (prop raw "summary") then prop raw "summary" else JUndefined);
    ("debug", prop raw "debug" ?? JUndefined)]).

End SummaryView.

End Display.

(** ** The progress timer of the processing page *)

Module Processing.

(** The [duration] of the four steps. *)
Definition durations : list Z := [3000; 4000; 6000; 5000]%Z.

Definition totalDuration : Z := fold_left Z.add durations 0%Z.

(** The [for] loop that finds the current step; without a [break] the
    step stays 0. *)
Fixpoint findStep (i : nat) (stepProgress : Z) (ds : list Z) (elapsed : Z) : nat :=
  match ds with
  | [] => 0%nat
  | d :: rest =>
      let stepProgress := (stepProgress + d)%Z in
      if (elapsed <=? stepProgress)%Z then i
      else findStep (S i) stepProgress rest elapsed
  end.

Record view : Type := mkView {
  elapsed : Z;
  progress : Q;
  currentStep : nat;
  finished : bool
}.

(** One run of the interval callback, from the value of [elapsed] the
    previous run left. *)
Definition tick (elapsed : Z) : view :=
  let elapsed := (elapsed + 100)%Z in
  let newProgress :=
    Gauge.Math_min (inject_Z elapsed / inject_Z totalDuration * 100) 100 in
  mkView elapsed newProgress (findStep 0 0%Z durations elapsed)
         (Qle_bool 100 newProgress).

(** The callback after [n] earlier runs. *)
Definition tickNumber (n : nat) : view := tick (100 * Z.of_nat n)%Z.

End Processing.

(** ** Preconditions and observations of the further properties *)

Module Pre.
Import Js Api Dashboard.

(** A summary payload whose three text fields, where present, have the
    types the response type declares. *)
Definition missingOr (test : JValue -> bool) (v : JValue) : bool := nullish v || test v.

Definition wellTypedSummary (raw : JValue) : Prop :=
  missingOr isString (prop raw "executive_summary") = true /\
  missingOr isString (prop raw "summary") = true /\
  missingOr isArray (prop raw "points") = true.

(** No leading and no trailing white space. *)
Definition trimmed (s : string) : Prop :=
  match Str.chars s with
  | [] => True
  | c :: _ => Str.is_space c = false
  end /\
  match rev (Str.chars s) with
  | [] => True
  | c :: _ => Str.is_space c = false
  end.

(** Consecutive recorded call times are at least the minimum interval
    apart, the first one counted from [t0]. *)
Fixpoint spaced (t0 : Z) (times : list Z) : Prop :=
  match times with
  | [] => True
  | t :: rest => (t0 + 1000 <= t)%Z /\ spaced t rest
  end.

(** What every synthesised item satisfies: its label is the band of its
    score, and the score lies between 10 and 85. *)
Definition banded (item : RiskItem) : Prop :=
  provided_severity item = JStr (tierOf (severity_score item)) /\
  (10 <= severity_score item <= 85)%Z.

(** The category an identifier stands for. *)
Definition id_category (v : JValue) : string :=
  match v with
  | JStr s => Str.str (Obs.after_last_dash (Str.chars s))
  | _ => ""
  end.

Definition is_bracket (c : ascii) : bool := Ascii.eqb c "[".

End Pre.

(** ** Properties of the risk-list normaliser *)

Section RisksNormalizer.
Import Js Api Obs.

Lemma bind_returns {A B} (m : outcome A) (k : A -> outcome B) (b : B) :
  bind m k = Returns b -> exists a, m = Returns a /\ k a = Returns b.
Proof. destruct m as [a|]; simpl; [eauto | discriminate]. Qed.

Lemma truthy_isArray (v : JValue) : isArray v = true -> truthy v = true.
Proof. destruct v; simpl; congruence. Qed.

(** On an array, or an object carrying a [risks] array, one unfolding does
    not reach the recursive call. *)
Lemma body_list (self : JValue -> outcome RisksResponse) (raw : JValue) :
  isArray (prop raw "risks") || isArray raw = true ->
  normalizeRisksResponse_body self raw = normalizeList raw.
Proof.
  intros Hlist. unfold normalizeRisksResponse_body, normalizeList.
  assert (Ht : truthy raw = true).
  { destruct raw; simpl in *; try discriminate; reflexivity. }
  rewrite Ht, Hlist. simpl negb. cbv iota.
  destruct (extractDocumentLevel raw) as [[arr dl]|]; simpl; [|reflexivity].
  destruct (mapi mapRisk arr) as [risks|]; simpl; [|reflexivity].
  destruct (truthy dl); reflexivity.
Qed.

Lemma normalizeList_nil : normalizeList (JArr []) = Returns empty.
Proof. reflexivity. Qed.

(** The normaliser is the array branch applied to the list payload. *)
Lemma normalizeRisksResponse_list (raw : JValue) :
  normalizeRisksResponse raw = normalizeList (listPayload raw).
Proof.
  unfold normalizeRisksResponse, listPayload.
  destruct (isArray (prop raw "risks") || isArray raw) eqn:Hlist.
  - apply body_list, Hlist.
  - unfold normalizeRisksResponse_body at 1. rewrite Hlist.
    destruct (truthy raw) eqn:Ht; simpl negb; cbv iota.
    + destruct (truthy (prop raw "risks") && typeofObject (prop raw "risks")
                && negb (isArray (prop raw "risks"))) eqn:Hleg.
      * apply body_list. reflexivity.
      * destruct (prop raw "risks"); simpl in *; try discriminate;
          symmetry; apply normalizeList_nil.
    + destruct raw; simpl in *; try discriminate; symmetry; apply normalizeList_nil.
Qed.

(** The function satisfies its own recursive equation: the recursion of the
    source terminates after one call. *)
Lemma normalizeRisksResponse_unfold (raw : JValue) :
  normalizeRisksResponse raw = normalizeRisksResponse_body normalizeRisksResponse raw.
Proof.
  unfold normalizeRisksResponse at 1.
  unfold normalizeRisksResponse_body at 1 3.
  destruct (negb (truthy raw)); [reflexivity|].
  destruct (isArray (prop raw "risks") || isArray raw); [reflexivity|].
  destruct (truthy (prop raw "risks") && typeofObject (prop raw "risks")
            && negb (isArray (prop raw "risks"))); [|reflexivity].
  rewrite body_list by reflexivity.
  unfold normalizeRisksResponse. rewrite body_list by reflexivity. reflexivity.
Qed.

(** A payload of no recognisable shape normalises to the empty assessment. *)
Lemma unrecognised_is_empty (raw : JValue) :
  isArray raw = false ->
  isArray (prop raw "risks") = false ->
  typeofObject (prop raw "risks") = false ->
  normalizeRisksResponse raw = Returns empty.
Proof.
  intros Ha Hr Ho. rewrite normalizeRisksResponse_list. unfold listPayload.
  rewrite Ha, Hr. simpl.
  destruct (prop raw "risks"); simpl in *; try discriminate; reflexivity.
Qed.

End RisksNormalizer.

(** ** The document-level aggregate *)

Section Aggregate.
Import Js Api Obs.

Lemma fold_left_add_total (l : list Z) (a : Z) :
  fold_left Z.add l a = (a + total l)%Z.
Proof.
  revert a. induction l as [|x l IH]; intros a; simpl.
  - lia.
  - rewrite IH. unfold total. simpl. lia.
Qed.





Lemma count_step_counts (l : list Z) (c : Counts) :
  let c' := fold_left count_step l c in
  high c' = (high c + length (List.filter is_high l))%nat /\
  medium c' = (medium c + length (List.filter is_medium l))%nat /\
  low c' = (low c + length (List.filter is_low l))%nat.
Proof.
  revert c. induction l as [|s l IH]; intros c; simpl.
  - repeat split; lia.
  - destruct (IH (count_step c s)) as (Hh & Hm & Hl).
    rewrite Hh, Hm, Hl. clear IH Hh Hm Hl.
    unfold count_step, is_high, is_medium, is_low.
    destruct (67 <=? s)%Z eqn:E1; destruct (34 <=? s)%Z eqn:E2;
      destruct (s <=? 66)%Z eqn:E3; destruct (s <=? 33)%Z eqn:E4;
      simpl; repeat split; lia.
Qed.

Lemma partition_scores (l : list Z) :
  (length (List.filter is_high l) + length (List.filter is_medium l)
   + length (List.filter is_low l) = length l)%nat.
Proof.
  induction l as [|s l IH]; simpl; [reflexivity|].
  unfold is_high, is_medium, is_low in *.
  destruct (67 <=? s)%Z eqn:E1; destruct (34 <=? s)%Z eqn:E2;
    destruct (s <=? 66)%Z eqn:E3; destruct (s <=? 33)%Z eqn:E4;
    simpl; lia.
Qed.

(** [Math.round(sum / n)] in integer arithmetic. *)
Lemma Math_round_quotient (s : Z) (p : positive) :
  Math_round (inject_Z s / inject_Z (Z.pos p)) = ((2 * s + Z.pos p) / (2 * Z.pos p))%Z.
Proof.
  unfold Math_round.
  assert (E : (inject_Z s / inject_Z (Z.pos p) + (1 # 2) == (2 * s + Z.pos p) # (2 * p))%Q).
  { unfold Qeq, Qdiv, Qinv, Qmult, Qplus, inject_Z. simpl. lia. }
  rewrite E. reflexivity.
Qed.

Lemma Math_round_integer (z : Z) : Math_round (inject_Z z) = z.
Proof.
  unfold Math_round.
  assert (E : (inject_Z z + (1 # 2) == (2 * z + 1) # 2)%Q).
  { unfold Qeq, Qplus, inject_Z. simpl. lia. }
  rewrite E. simpl. 
  pose proof (Z.div_mod (2 * z + 1) 2 ltac:(lia)).
  pose proof (Z.mod_pos_bound (2 * z + 1) 2 ltac:(lia)). lia.
Qed.

(** What [computeDocumentLevel] computes, in the terms of the aggregate
    formula. *)
Lemma computeDocumentLevel_spec (scores : list Z) :
  let d := computeDocumentLevel scores in
  let n := Z.of_nat (length scores) in
  let c := computed_risk_score d in
  (scores = [] -> c = 0%Z) /\
  (scores <> [] ->
     c = Math_round (inject_Z (total scores) / inject_Z n) /\
     (2 * n * c <= 2 * total scores + n < 2 * n * (c + 1))%Z) /\
  risk_tier d = (if (c <=? 33)%Z then "Low" else if (c <=? 66)%Z then "Medium" else "High") /\
  high (counts d) = length (List.filter is_high scores) /\
  medium (counts d) = length (List.filter is_medium scores) /\
  low (counts d) = length (List.filter is_low scores) /\
  (high (counts d) + medium (counts d) + low (counts d) = length scores)%nat.
Proof.
  intros d n c.
  assert (Hc : high (counts d) = length (List.filter is_high scores) /\
               medium (counts d) = length (List.filter is_medium scores) /\
               low (counts d) = length (List.filter is_low scores)).
  { destruct (count_step_counts scores (mkCounts 0 0 0)) as (Hh & Hm & Hl).
    subst d. unfold computeDocumentLevel. simpl. rewrite Hh, Hm, Hl. auto. }
  destruct Hc as (Hh & Hm & Hl).
  split; [|split; [|split; [|split; [|split; [|split]]]]]; try assumption.
  - intros ->. reflexivity.
  - intros Hne. destruct scores as [|x l]; [congruence|].
    assert (Hn : n = Z.pos (Pos.of_succ_nat (length l))).
    { subst n. simpl length. rewrite Znat.Zpos_P_of_succ_nat. lia. }
    assert (Hcv : c = Math_round (inject_Z (total (x :: l)) / inject_Z n)).
    { subst c d n. unfold computeDocumentLevel. simpl computed_risk_score.
      rewrite fold_left_add_total, Z.add_0_l. reflexivity. }
    split; [exact Hcv|].
    rewrite Hcv, Hn, Math_round_quotient.
    set (p := Z.pos (Pos.of_succ_nat (length l))).
    pose proof (Z.mul_div_le (2 * total (x :: l) + p) (2 * p) ltac:(lia)).
    pose proof (Z.mul_succ_div_gt (2 * total (x :: l) + p) (2 * p) ltac:(lia)).
    lia.
  - reflexivity.
  - rewrite Hh, Hm, Hl. apply partition_scores.
Qed.

(** *** The safe range

    In the range of [safe_scores] the doubles of the code compute what the
    exact arithmetic of the model computes.  Every partial sum of the scores
    is an integer below 2^52 in magnitude, hence a double, and each addition
    is exact. *)
Lemma fold_left_add_magnitude (l : list Z) (a : Z) :
  (Z.abs (fold_left Z.add l a) <= Z.abs a + magnitude l)%Z.
Proof.
  revert a. induction l as [|s l IH]; intros a; simpl; [lia|].
  specialize (IH (a + s)%Z). lia.
Qed.

Lemma magnitude_firstn (l : list Z) (k : nat) :
  (0 <= magnitude (firstn k l) <= magnitude l)%Z.
Proof.
  revert k. induction l as [|s l IH]; intros [|k]; simpl; try lia.
  - specialize (IH 0%nat). simpl in IH. lia.
  - specialize (IH k). lia.
Qed.

Lemma partial_sums_safe (scores : list Z) (k : nat) :
  safe_scores scores ->
  (Z.abs (fold_left Z.add (firstn k scores) 0) < 2 ^ 52)%Z.
Proof.
  intros [_ H].
  pose proof (fold_left_add_magnitude (firstn k scores) 0).
  pose proof (magnitude_firstn scores k). lia.
Qed.

(** The quotient is rounded once by the division.  Let [x] be the exact
    quotient of a sum [s] below 2^52 in magnitude by a length [p], and [y]
    the double the division returns: [y] is within a relative error of
    2^-53 of [x], and it is not below the half-integer [c - 1/2 <= x] for
    [c = Math.round x], since that half-integer is a double and rounding to
    nearest is monotone.  Then [Math.round y] is [Math.round x]: [x] is at
    least [1 / (2 p)] below [c + 1/2], more than the rounding error. *)
Lemma Math_round_of_rounded_quotient (s : Z) (p : positive) (y : Q) :
  (Z.abs s < 2 ^ 52)%Z ->
  let x := (inject_Z s / inject_Z (Z.pos p))%Q in
  (Qabs (y - x) * inject_Z (2 ^ 53) <= Qabs x)%Q ->
  (inject_Z (Math_round x) - (1 # 2) <= y)%Q ->
  Math_round y = Math_round x.
Proof.
  intros Hs x Herr Hlow. subst x.
  rewrite Math_round_quotient in *.
  set (c := ((2 * s + Z.pos p) / (2 * Z.pos p))%Z) in *.
  assert (Hc : (2 * Z.pos p * c <= 2 * s + Z.pos p < 2 * Z.pos p * (c + 1))%Z).
  { pose proof (Z.mul_div_le (2 * s + Z.pos p) (2 * Z.pos p) ltac:(lia)).
    pose proof (Z.mul_succ_div_gt (2 * s + Z.pos p) (2 * Z.pos p) ltac:(lia)).
    subst c. lia. }
  clearbody c.
  destruct y as [a b].
  assert (Hlow' : ((2 * c - 1) * Z.pos b <= 2 * a)%Z).
  { unfold Qle, Qminus, Qplus, Qopp, inject_Z in Hlow. simpl in Hlow. lia. }
  assert (Herr' : (Z.abs (a * Z.pos p - s * Z.pos b) * 2 ^ 53 <= Z.abs s * Z.pos b)%Z).
  { unfold Qle, Qabs, Qminus, Qplus, Qopp, Qmult, Qdiv, Qinv, inject_Z in Herr.
    simpl in Herr. rewrite ?Z.mul_1_l in Herr.
    apply (Z.mul_le_mono_pos_r _ _ (Z.pos p)); [lia|].
    replace (a * Z.pos p - s * Z.pos b)%Z with (a * Z.pos p + - s * Z.pos b)%Z by lia.
    lia. }
  unfold Math_round.
  assert (E : ((a # b) + (1 # 2) == (2 * a + Z.pos b) # (2 * b))%Q).
  { unfold Qeq, Qplus. simpl. lia. }
  rewrite E. simpl.
  assert (Hup : (2 * a < Z.pos b * (2 * c + 1))%Z).
  { assert (H1 : (2 ^ 53 * (2 * (a * Z.pos p)) < 2 ^ 53 * (Z.pos b * (2 * s + 1)))%Z) by nia.
    assert (H2 : (Z.pos b * (2 * s + 1) <= Z.pos b * (Z.pos p * (2 * c + 1)))%Z) by nia.
    nia. }
  symmetry.
  apply Z.div_unique with (r := (2 * a + Z.pos b - 2 * Z.pos b * c)%Z); lia.
Qed.
Lemma computed_score_of_rounded_mean (scores : list Z) (y : Q) :
  scores <> [] -> safe_scores scores ->
  let x := (inject_Z (total scores) / inject_Z (Z.of_nat (length scores)))%Q in
  (Qabs (y - x) * inject_Z (2 ^ 53) <= Qabs x)%Q ->
  (inject_Z (Math_round x) - (1 # 2) <= y)%Q ->
  Math_round y = computed_risk_score (computeDocumentLevel scores).
Proof.
  intros Hne Hsafe x Herr Hlow.
  destruct scores as [|s0 l]; [congruence|]. clear Hne.
  assert (Ht : (Z.abs (total (s0 :: l)) < 2 ^ 52)%Z).
  { pose proof (partial_sums_safe (s0 :: l) (length (s0 :: l)) Hsafe) as H.
    rewrite firstn_all, fold_left_add_total in H. exact H. }
  assert (Hn : Z.of_nat (length (s0 :: l)) = Z.pos (Pos.of_succ_nat (length l))).
  { simpl length. rewrite Znat.Zpos_P_of_succ_nat. lia. }
  subst x. rewrite Hn in *.
  rewrite (Math_round_of_rounded_quotient _ _ y Ht Herr Hlow).
  unfold computeDocumentLevel. cbn [computed_risk_score length].
  rewrite fold_left_add_total, Z.add_0_l.
  change (Z.of_nat (S (length l))) with (Z.of_nat (length (s0 :: l))).
  rewrite Hn. reflexivity.
Qed.

End Aggregate.

(** ** Items and aggregate of a normalised risk list *)

Section RiskItems.
Import Js Api Obs.

Lemma mapi_from_Forall2 {A B} (f : A -> nat -> outcome B) (i : nat) (l : list A)
    (ys : list B) :
  mapi_from f i l = Returns ys ->
  Forall2 (fun x y => exists j, f x j = Returns y) l ys.
Proof.
  revert i ys. induction l as [|x l IH]; intros i ys H; simpl in H.
  - injection H as <-. constructor.
  - apply bind_returns in H as (y & Hy & H).
    apply bind_returns in H as (ys' & Hys & H).
    injection H as <-. constructor; eauto.
Qed.

(** A run that returns has mapped every candidate, and kept the supplied
    aggregate or computed one. *)
Lemma normalizeRisksResponse_returns (raw : JValue) (v : RisksResponse) :
  normalizeRisksResponse raw = Returns v ->
  mapi mapRisk (candidates raw) = Returns (risks v) /\
  document_level v =
    (if truthy (suppliedAggregate raw) then suppliedAggregate raw
     else DocumentLevel_js (computeDocumentLevel (map severity_score (risks v)))).
Proof.
  rewrite normalizeRisksResponse_list. unfold normalizeList, candidates, suppliedAggregate.
  destruct (extractDocumentLevel (listPayload raw)) as [[arr dl]|]; simpl; [|discriminate].
  intros H. apply bind_returns in H as (rs & Hrs & H).
  injection H as <-. simpl. auto.
Qed.

Lemma mapRisk_score (r : JValue) (j : nat) (item : RiskItem) :
  mapRisk r j = Returns item ->
  severity_score item =
    match prop r "severity_score" with
    | JNum q => Math_round q
    | _ => scoreOfLabel (labelOf r)
    end.
Proof.
  unfold mapRisk, get. destruct (nullish r); simpl; [discriminate|].
  intros H. injection H as <-. reflexivity.
Qed.

(** C3. Whenever the payload supplies no document-level aggregate, the
    aggregate of the normalised assessment is computed from the items: the
    score is [Math.round] of the mean of the items' scores, that is the
    integer [c] with [c - 1/2 <= mean < c + 1/2], and 0 without items; the
    tier is Low up to 33, Medium up to 66 and High above; the three counts
    are the numbers of scores at least 67, between 34 and 66, and at most
    33, and add up to the number of items.  The scores are taken in the
    safe range, in which the sum and the quotient of the doubles are those
    of the integers. *)
Theorem computed_aggregate (raw : JValue) (v : RisksResponse) :
  normalizeRisksResponse raw = Returns v ->
  truthy (suppliedAggregate raw) = false ->
  safe_scores (map severity_score (risks v)) ->
  let scores := map severity_score (risks v) in
  let n := Z.of_nat (length (risks v)) in
  exists (c : Z) (tier : string) (h m l : nat),
    document_level v = DocumentLevel_js (mkDocumentLevel c tier (mkCounts h m l)) /\
    (risks v = [] -> c = 0%Z) /\
    (risks v <> [] ->
       c = Math_round (inject_Z (total scores) / inject_Z n) /\
       (2 * n * c <= 2 * total scores + n < 2 * n * (c + 1))%Z) /\
    tier = (if (c <=? 33)%Z then "Low" else if (c <=? 66)%Z then "Medium" else "High") /\
    h = length (List.filter is_high scores) /\
    m = length (List.filter is_medium scores) /\
    l = length (List.filter is_low scores) /\
    (h + m + l = length (risks v))%nat.
Proof.
  intros Hret Hnone _ scores n.
  apply normalizeRisksResponse_returns in Hret as [_ Hdl].
  rewrite Hnone in Hdl. fold scores in Hdl.
  pose proof (computeDocumentLevel_spec scores) as Hspec. cbv zeta in Hspec.
  destruct (computeDocumentLevel scores) as [c tier [h m l]] eqn:Hd.
  simpl in Hspec. destruct Hspec as (H0 & Hmean & Htier & Hh & Hm & Hl & Hsum).
  assert (Hlen : length scores = length (risks v)) by apply length_map.
  assert (Hne : risks v <> [] -> scores <> []).
  { intros Hne E. apply Hne. subst scores.
    destruct (risks v); [reflexivity|discriminate]. }
  exists c, tier, h, m, l.
  split; [exact Hdl|]. split.
  { intros E. apply H0. subst scores. rewrite E. reflexivity. }
  split.
  { intros Hv. subst n. rewrite <- Hlen. apply Hmean, Hne, Hv. }
  split; [exact Htier|]. split; [exact Hh|]. split; [exact Hm|].
  split; [exact Hl|]. lia.
Qed.

End RiskItems.

Section RiskScores.
Import Js Api Obs.

Lemma computed_aggregate_witness :
  exists (c : Z) (tier : string) (h m l : nat),
    document_level sampleAssessment
      = DocumentLevel_js (mkDocumentLevel c tier (mkCounts h m l)) /\
    c = 70%Z /\ tier = "High" /\ (h + m + l = length (risks sampleAssessment))%nat.
Proof.
  assert (Hsafe : safe_scores (map severity_score (risks sampleAssessment))).
  { split; vm_compute; reflexivity. }
  destruct (computed_aggregate sampleRisks sampleAssessment eq_refl eq_refl Hsafe)
    as (c & tier & h & m & l & Hdl & _ & Hc & Ht & _ & _ & _ & Hsum).
  exists c, tier, h, m, l.
  assert (Hc' : c = 70%Z). { apply Hc. discriminate. }
  split; [exact Hdl|]. split; [exact Hc'|]. split; [|exact Hsum].
  rewrite Ht, Hc'. reflexivity.
Defined.

Lemma mapi_from_throws {A B} (f : A -> nat -> outcome B) (x : A) (l : list A) (i : nat) :
  (forall j, f x j = Throws) -> x ∈ l -> mapi_from f i l = Throws.
Proof.
  intros Hx Hin. revert i. induction l as [|y l IH]; intros i; [inversion Hin|].
  simpl. apply elem_of_cons in Hin as [<-|Hin].
  - rewrite Hx. reflexivity.
  - destruct (f y i); simpl; [|reflexivity]. rewrite (IH Hin). reflexivity.
Qed.

Lemma null_not_last (xs : list JValue) (l : JValue) :
  JNull ∈ xs -> last xs = Some l -> l <> JNull -> JNull ∈ removelast xs.
Proof.
  intros Hin Hlast Hl. apply last_Some in Hlast as [xs' ->].
  rewrite removelast_last. apply elem_of_app in Hin as [Hin|Hin]; [exact Hin|].
  apply list_elem_of_singleton in Hin. congruence.
Qed.

(** C1. The risk-list normaliser throws on every array that holds a
    [null] element: [typeof null] is ['object'], so for a trailing [null]
    the test for an aggregate applies [in] to [null]; a [null] in any
    other position makes the item callback read a property of [null]. *)
Theorem risks_null_element_throws (xs : list JValue) :
  JNull ∈ xs -> normalizeRisksResponse (JArr xs) = Throws.
Proof.
  intros Hin. unfold normalizeRisksResponse. rewrite body_list by reflexivity.
  unfold normalizeList, extractDocumentLevel.
  cbn [isArray elements prop].
  destruct (last xs) as [l|] eqn:Hlast.
  - destruct l as [| |b|q|s|ys|fields];
      cbn [typeofObject has_key bind truthy default from_option Datatypes.id];
      try reflexivity;
      try (unfold mapi; rewrite (mapi_from_throws mapRisk JNull xs 0) by (auto || reflexivity);
           reflexivity).
    destruct (bool_decide (is_Some (lookup_field "document_level" fields)));
      cbn [bind truthy].
    + unfold mapi.
      rewrite (mapi_from_throws mapRisk JNull (removelast xs) 0);
        [reflexivity|reflexivity|].
      eapply null_not_last; [exact Hin|exact Hlast|discriminate].
    + unfold mapi. rewrite (mapi_from_throws mapRisk JNull xs 0) by (auto || reflexivity).
      reflexivity.
  - apply last_None in Hlast. subst xs. inversion Hin.
Qed.

Lemma risks_null_element_throws_witness :
  normalizeRisksResponse (JArr [JNull]) = Throws /\
  normalizeRisksResponse (JArr [JNull; JObj [("severity_score", JNum 40)]]) = Throws.
Proof.
  split.
  - apply risks_null_element_throws. left.
  - apply risks_null_element_throws. left.
Defined.

(** C4. A candidate risk object without a numeric [severity_score] gets
    its score from its severity label ([provided_severity], else
    [severity_level], else ['Low']): 85 when the lower-cased label contains
    "high", else 50 when it contains "medium", else 15, and 15 as well
    when the label is not a string. *)
Theorem score_from_label (raw : JValue) (v : RisksResponse) (k : nat) (r : JValue) :
  normalizeRisksResponse raw = Returns v ->
  candidates raw !! k = Some r ->
  isNumber (prop r "severity_score") = false ->
  exists item : RiskItem,
    risks v !! k = Some item /\
    match labelOf r with
    | JStr s =>
        let p := Str.toLowerCase s in
        (Str.includes p "high" = true -> severity_score item = 85%Z) /\
        (Str.includes p "high" = false -> Str.includes p "medium" = true ->
           severity_score item = 50%Z) /\
        (Str.includes p "high" = false -> Str.includes p "medium" = false ->
           severity_score item = 15%Z)
    | _ => severity_score item = 15%Z
    end.
Proof.
  intros Hret Hk Hnum.
  apply normalizeRisksResponse_returns in Hret as [Hmap _].
  apply mapi_from_Forall2 in Hmap.
  destruct (Forall2_lookup_l _ _ _ _ _ Hmap Hk) as (item & Hitem & j & Hj).
  exists item. split; [exact Hitem|].
  apply mapRisk_score in Hj. rewrite Hj.
  destruct (prop r "severity_score"); try discriminate;
    unfold scoreOfLabel; destruct (labelOf r); try reflexivity;
    cbv zeta; destruct (Str.includes _ "high"); destruct (Str.includes _ "medium");
    repeat split; intros; congruence.
Qed.

Lemma score_from_label_witness :
  exists item : RiskItem,
    risks sampleAssessment !! 1%nat = Some item /\ severity_score item = 50%Z.
Proof.
  destruct (score_from_label sampleRisks sampleAssessment 1
              (JObj [("provided_severity", JStr "Medium")]) eq_refl eq_refl eq_refl)
    as (item & Hitem & Hcases).
  exists item. split; [exact Hitem|].
  simpl in Hcases. apply Hcases; reflexivity.
Defined.

(** C8. The field [severity_score] is declared as a number in 0-100, and
    the gauge clamps what it draws to that range; [normalizeRisksResponse]
    only rounds a supplied number.  On the payload
    [[{"severity_score": 150}]] it returns one item whose score is 150,
    outside 0-100, and an aggregate computed from it of score 150. *)
Theorem supplied_score_not_clamped :
  exists (v : RisksResponse) (item : RiskItem),
    normalizeRisksResponse overflowRisks = Returns v /\
    risks v = [item] /\
    severity_score item = 150%Z /\
    ~ in_range (severity_score item) /\
    prop (document_level v) "computed_risk_score" = JInt 150.
Proof.
  eexists _, _. split; [vm_compute; reflexivity|]. split; [reflexivity|].
  split; [reflexivity|]. split; [|reflexivity].
  unfold in_range. cbn [severity_score]. lia.
Qed.

End RiskScores.

(** ** Properties of the summary normaliser *)

Section SummaryNormalizer.
Import Js Api Obs.

(** C2. The summary normaliser throws on a payload whose [summary] is a
    number, returns [points] that is not an array when the payload's
    [points] is a number and nothing else is recognised, and returns an
    [executive_summary] that is not a string when the payload's is a
    number. *)
Theorem summary_ill_typed :
  normalizeSummarizeResponse (JObj [("summary", JNum 5)]) = Throws /\
  (exists v, normalizeSummarizeResponse (JObj [("points", JNum 5)]) = Returns v /\
             prop v "points" = JNum 5) /\
  (exists v, normalizeSummarizeResponse (JObj [("executive_summary", JNum 5)]) = Returns v /\
             prop v "executive_summary" = JNum 5).
Proof.
  split; [reflexivity|]. split; eexists; (split; [reflexivity|reflexivity]).
Qed.

(** The value of [points] on the structured branch. *)
Lemma structured_points_array (raw points : JValue) :
  (if isArray (prop raw "points") then Returns (prop raw "points")
   else if isString (prop raw "points") then Returns (JArr [prop raw "points"])
   else if truthy (prop raw "summary")
        then let* pts := splitIntoPoints (prop raw "summary") 10 in
             Returns (points_js pts)
        else Returns (JArr [])) = Returns points ->
  isArray points = true.
Proof.
  destruct (isArray (prop raw "points")) eqn:Ha.
  { intros H. injection H as <-. exact Ha. }
  destruct (isString (prop raw "points")).
  { intros H. injection H as <-. reflexivity. }
  destruct (truthy (prop raw "summary")).
  - intros H. apply bind_returns in H as (pts & _ & H). injection H as <-. reflexivity.
  - intros H. injection H as <-. reflexivity.
Qed.

(** C10. On the structured branch the returned [key_clauses] is the empty
    array, whatever [key_clauses] the input object carries. *)
Theorem structured_key_clauses_empty (fields : list (string * JValue)) (v : JValue) :
  truthy (prop (JObj fields) "executive_summary")
    || isArray (prop (JObj fields) "points") = true ->
  normalizeSummarizeResponse (JObj fields) = Returns v ->
  prop v "key_clauses" = JArr [].
Proof.
  intros Hs. unfold normalizeSummarizeResponse.
  change (truthy (JObj fields)) with true. cbv iota. simpl negb. cbv iota.
  rewrite Hs. intros H.
  apply bind_returns in H as (points & _ & H). injection H as <-.
  simpl. match goal with |- (if ?c then _ else _) = _ => destruct c end; reflexivity.
Qed.

Lemma structured_key_clauses_empty_witness :
  exists v, normalizeSummarizeResponse structuredSummary = Returns v /\
            prop v "key_clauses" = JArr [] /\
            prop structuredSummary "key_clauses" <> JArr [].
Proof.
  eexists. split; [reflexivity|]. split.
  - apply (structured_key_clauses_empty
             [("executive_summary", JStr "A twelve month lease.");
              ("key_clauses", JArr [JObj [("title", JStr "Rent"); ("text", JStr "Due monthly.");
                                          ("importance", JNum 3)]])]).
    + reflexivity.
    + reflexivity.
  - discriminate.
Defined.

End SummaryNormalizer.

Section SummaryPoints.
Import Js Api Obs Dashboard.

Lemma legacy_conditions (raw : JValue) :
  legacy raw = true ->
  truthy raw = true /\
  truthy (prop raw "executive_summary") || isArray (prop raw "points") = false /\
  isString (prop raw "summary") = true.
Proof.
  unfold legacy, structured. destruct (truthy raw); simpl; [|discriminate].
  destruct (truthy (prop raw "executive_summary") || isArray (prop raw "points"));
    simpl; [discriminate|]. auto.
Qed.

Lemma nonempty_true (s : string) : s <> "" -> Str.nonempty s = true.
Proof.
  intros Hs. unfold Str.nonempty. destruct (String.eqb s "") eqn:E; [|reflexivity].
  apply String.eqb_eq in E. contradiction.
Qed.

(** C7, as stated, fails: a long summary without sentence or comma
    boundaries gives a single point, not windows of 120 characters; and the
    dashboard's own splitter, which does cut windows, keeps fragments
    shorter than 10 characters. *)
Lemma ladder_not_followed :
  (exists v, normalizeSummarizeResponse (JObj [("summary", JStr longWord)]) = Returns v /\
             prop v "points" = points_js [longWord] /\
             length (ladderPoints longWord) = 3%nat) /\
  formatSummaryPoints "Hi. Ok." = ["Hi."; "Ok."] /\
  ladderPoints "Hi. Ok." = ["Hi. Ok."].
Proof.
  split; [eexists; split; [vm_compute; reflexivity|split; vm_compute; reflexivity]|].
  split; vm_compute; reflexivity.
Qed.

(** C7, amended. For a payload carrying only a legacy flat summary string
    the normaliser returns, keeps the string as executive summary, and
    derives between 1 and 10 points from it (when it is not empty): the
    trimmed sentence fragments longer than 10 characters when there are at
    least 2 of them; else the non-empty trimmed fragments between runs of
    commas and semicolons when there are at least 2; else the whole
    trimmed string as the single point. *)
Theorem legacy_points (raw : JValue) (s : string) :
  legacy raw = true ->
  prop raw "summary" = JStr s ->
  s <> "" ->
  let sentences :=
    List.filter (fun f => (10 <? String.length f)%nat)
                (map Str.trim (Str.split_sentences s)) in
  let parts := List.filter Str.nonempty (map Str.trim (Str.split_separators s)) in
  exists (v : JValue) (pts : list string),
    normalizeSummarizeResponse raw = Returns v /\
    prop v "executive_summary" = JStr s /\
    prop v "points" = points_js pts /\
    pts <> [] /\
    (length pts <= 10)%nat /\
    ((2 <= length sentences)%nat -> pts = map cleanup (take 10 sentences)) /\
    ((length sentences < 2)%nat -> (2 <= length parts)%nat ->
       pts = map cleanup (take 10 parts)) /\
    ((length sentences < 2)%nat -> (length parts < 2)%nat -> pts = [Str.trim s]).
Proof.
  intros Hleg Hsum Hs sentences parts.
  destruct (legacy_conditions raw Hleg) as (Ht & Hns & Hstr).
  unfold normalizeSummarizeResponse. rewrite Ht, Hns, Hstr, Hsum. simpl negb. cbv iota.
  unfold splitIntoPoints.
  change (truthy (JStr s)) with (Str.nonempty s). rewrite (nonempty_true s Hs).
  simpl negb. cbv iota zeta. fold sentences. fold parts.
  destruct (1 <? length sentences)%nat eqn:E1.
  - apply Nat.ltb_lt in E1.
    eexists. exists (map cleanup (take 10 sentences)).
    split; [reflexivity|]. split; [reflexivity|]. split; [reflexivity|].
    split. { destruct sentences as [|a [|b l]]; simpl in *; try lia; discriminate. }
    split. { rewrite length_map, length_take. lia. }
    split; [reflexivity|]. split; intros; lia.
  - apply Nat.ltb_ge in E1.
    destruct (1 <? length parts)%nat eqn:E2.
    + apply Nat.ltb_lt in E2.
      eexists. exists (map cleanup (take 10 parts)).
      split; [reflexivity|]. split; [reflexivity|]. split; [reflexivity|].
      split. { destruct parts as [|a [|b l]]; simpl in *; try lia; discriminate. }
      split. { rewrite length_map, length_take. lia. }
      split; [intros; lia|]. split; [reflexivity|intros; lia].
    + apply Nat.ltb_ge in E2.
      eexists. exists [Str.trim s].
      split; [reflexivity|]. split; [reflexivity|]. split; [reflexivity|].
      split; [discriminate|]. split; [simpl; lia|].
      split; [intros; lia|]. split; [intros; lia|reflexivity].
Qed.

Lemma legacy_points_witness :
  exists (v : JValue) (pts : list string),
    normalizeSummarizeResponse legacySummary = Returns v /\
    prop v "points" = points_js pts /\
    pts = ["Tenant must pay rent by the 1st.";
           "Late fees apply after a 5-day grace period.";
           "Deposit is non-refundable."].
Proof.
  destruct (legacy_points legacySummary
              "Tenant must pay rent by the 1st. Late fees apply after a 5-day grace period. Deposit is non-refundable."
              eq_refl eq_refl ltac:(discriminate))
    as (v & pts & Hv & _ & Hp & _ & _ & Hsent & _).
  exists v, pts. split; [exact Hv|]. split; [exact Hp|].
  rewrite Hsent; [reflexivity|]. vm_compute. lia.
Defined.

End SummaryPoints.

(** ** Normalising a normalised value *)

Section Renormalize.
Import Js Api Obs.

Lemma coalesce_not_nullish (a b : JValue) : nullish b = false -> nullish (a ?? b) = false.
Proof. unfold coalesce. destruct (nullish a) eqn:E; auto. Qed.

Lemma coalesce_id (a b : JValue) : nullish a = false -> a ?? b = a.
Proof. unfold coalesce. intros ->. reflexivity. Qed.

(** [x ?? null] and [x ?? undefined] are left alone by the same defaults. *)
Lemma coalesce_null_stable (x : JValue) : (x ?? JNull) ?? JUndefined ?? JNull = x ?? JNull.
Proof. destruct x; reflexivity. Qed.

Lemma coalesce_undefined_stable (x : JValue) : (x ?? JUndefined) ?? JUndefined = x ?? JUndefined.
Proof. destruct x; reflexivity. Qed.

(** A value of the nine-field shape is reproduced by the structured branch. *)
Lemma structured_shape_fixed (d e P u c f g s : JValue) :
  nullish e = false ->
  isArray P = true ->
  u ?? JUndefined ?? JNull = u ->
  c ?? JUndefined ?? JNull = c ->
  isBoolean f = true ->
  g ?? JUndefined = g ->
  nullish s = false ->
  let o := JObj [("doc_id", d); ("executive_summary", e); ("points", P);
                 ("key_clauses", JArr []); ("purpose", u); ("rag_corpus", c);
                 ("fallback", f); ("debug", g); ("summary", s)] in
  normalizeSummarizeResponse o = Returns o.
Proof.
  intros He HP Hu Hc Hf Hg Hs o. subst o.
  unfold normalizeSummarizeResponse.
  cbn [truthy negb prop lookup_field String.eqb Ascii.eqb Bool.eqb default
       from_option Datatypes.id].
  rewrite HP, orb_true_r. cbn [bind].
  rewrite Hf, Hu, Hc, Hg, (coalesce_id e _ He), (coalesce_id s _ Hs).
  reflexivity.
Qed.

(** C9, as stated, fails for both normalisers: the value produced for a
    [null] summary payload gains [purpose], [rag_corpus] and [summary]
    fields on the second pass; a textual [recs] kept as [recommendations]
    by the first pass is replaced by the empty array on the second. *)
Lemma normalization_not_idempotent :
  ~ (forall raw v : JValue,
       normalizeSummarizeResponse raw = Returns v ->
       normalizeSummarizeResponse v = Returns v) /\
  ~ (forall (raw : JValue) (v : RisksResponse),
       normalizeRisksResponse raw = Returns v ->
       normalizeRisksResponse (RisksResponse_js v) = Returns v).
Proof.
  split; intros H.
  - specialize (H JNull _ eq_refl). vm_compute in H. discriminate H.
  - specialize (H recsRisks _ eq_refl). vm_compute in H. discriminate H.
Qed.

Lemma isString_not_nullish (x : JValue) : isString x = true -> nullish x = false.
Proof. destruct x; simpl; congruence. Qed.

Lemma coalesce2_null_stable (a b : JValue) :
  (a ?? b ?? JNull) ?? JUndefined ?? JNull = a ?? b ?? JNull.
Proof. destruct a; destruct b; reflexivity. Qed.

(** Summary normalisation reproduces what its legacy branch returned, and
    what its structured branch returned for a payload with a summary or an
    executive summary. *)
Lemma summary_renormalize (raw v : JValue) :
  normalizeSummarizeResponse raw = Returns v ->
  legacy raw = true \/
  (structured raw = true /\
   nullish (prop raw "summary" ?? prop raw "executive_summary") = false) ->
  normalizeSummarizeResponse v = Returns v.
Proof.
  intros Hv [Hleg | [Hstr Hsum]].
  - destruct (legacy_conditions raw Hleg) as (Ht & Hns & Hs).
    unfold normalizeSummarizeResponse in Hv. rewrite Ht, Hns, Hs in Hv.
    simpl negb in Hv. cbv iota in Hv.
    apply bind_returns in Hv as (pts & _ & Hv). injection Hv as <-.
    apply structured_shape_fixed.
    + apply isString_not_nullish, Hs.
    + reflexivity.
    + apply coalesce_null_stable.
    + apply coalesce2_null_stable.
    + reflexivity.
    + apply coalesce_undefined_stable.
    + apply isString_not_nullish, Hs.
  - unfold structured in Hstr. apply andb_prop in Hstr as [Ht Hb].
    unfold normalizeSummarizeResponse in Hv. rewrite Ht, Hb in Hv.
    simpl negb in Hv. cbv iota in Hv.
    apply bind_returns in Hv as (P & HP & Hv). injection Hv as <-.
    apply structured_points_array in HP.
    match goal with
    | |- context [("key_clauses", if ?c then _ else _)] => destruct c
    end;
    (apply structured_shape_fixed;
     [ apply coalesce_not_nullish; destruct (prop raw "summary"); reflexivity
     | exact HP
     | apply coalesce2_null_stable
     | apply coalesce2_null_stable
     | destruct (prop raw "fallback"); reflexivity
     | apply coalesce_undefined_stable
     | revert Hsum; unfold coalesce;
       destruct (nullish (prop raw "summary")) eqn:E1;
         [destruct (nullish (prop raw "executive_summary")) eqn:E2|];
         intros Hsum; congruence ]).
Qed.

Lemma mapRisk_settled (r : JValue) (i : nat) (item : RiskItem) :
  mapRisk r i = Returns item -> settled item.
Proof.
  unfold mapRisk, get. destruct (nullish r); simpl; [discriminate|].
  intros H. injection H as <-. unfold settled. simpl.
  repeat split.
  - apply coalesce_not_nullish. reflexivity.
  - do 2 apply coalesce_not_nullish. reflexivity.
  - do 3 apply coalesce_not_nullish. reflexivity.
  - do 3 apply coalesce_not_nullish. reflexivity.
  - apply coalesce_undefined_stable.
  - do 2 apply coalesce_not_nullish.
    destruct (isString (prop r "label")) eqn:E.
    + apply isString_not_nullish, E.
    + apply coalesce_not_nullish. reflexivity.
  - do 3 apply coalesce_not_nullish. reflexivity.
  - apply coalesce_not_nullish. reflexivity.
Qed.

(** A settled item whose recommendations are an array is mapped to itself. *)
Lemma mapRisk_fixed (item : RiskItem) (j : nat) :
  settled item ->
  isArray (recommendations item) = true ->
  mapRisk (RiskItem_js item) j = Returns item.
Proof.
  intros (Hid & Hps & Hsl & Hsn & Hlb & Hsr & Hex & Hct) Hrec.
  destruct item as [i ps sl sc sn lb sr ex rc ct]. simpl in *.
  unfold mapRisk, get, RiskItem_js.
  cbn [nullish bind prop lookup_field String.eqb Ascii.eqb Bool.eqb default
       from_option Datatypes.id Api.id provided_severity severity_level
       severity_score snippet label short_risk explanation recommendations
       citation JInt].
  rewrite Hrec, Math_round_integer, Hlb.
  rewrite !(coalesce_id i), !(coalesce_id ps), !(coalesce_id sl), !(coalesce_id sn),
    !(coalesce_id sr), !(coalesce_id ex), !(coalesce_id ct) by assumption.
  reflexivity.
Qed.

Lemma mapi_from_fixed (items : list RiskItem) (i : nat) :
  Forall settled items ->
  Forall (fun item => isArray (recommendations item) = true) items ->
  mapi_from mapRisk i (map RiskItem_js items) = Returns items.
Proof.
  revert i. induction items as [|item items IH]; intros i Hs Hr;
    cbn [map mapi_from]; [reflexivity|].
  pose proof (List.Forall_inv Hs) as Hs1. pose proof (List.Forall_inv Hr) as Hr1.
  pose proof (List.Forall_inv_tail Hs) as Hs2. pose proof (List.Forall_inv_tail Hr) as Hr2.
  cbv beta in Hr1.
  rewrite (mapRisk_fixed item i Hs1 Hr1). cbn [bind].
  rewrite (IH (S i) Hs2 Hr2). reflexivity.
Qed.

Lemma mapped_settled (arr : list JValue) (items : list RiskItem) :
  mapi mapRisk arr = Returns items -> Forall settled items.
Proof.
  intros Hmap. apply mapi_from_Forall2 in Hmap.
  induction Hmap as [|r item rs its (j & Hj) _ IH]; constructor.
  - eapply mapRisk_settled, Hj.
  - exact IH.
Qed.

Lemma last_items_js (items : list RiskItem) :
  match last (map RiskItem_js items) with
  | Some l => if typeofObject l then has_key "document_level" l else Returns false
  | None => Returns false
  end = Returns false.
Proof.
  induction items as [|a [|b l] IH]; [reflexivity|reflexivity|exact IH].
Qed.

(** Risk-list normalisation reproduces a value it returned whose items all
    have an array of recommendations. *)
Lemma risks_renormalize (raw : JValue) (v : RisksResponse) :
  normalizeRisksResponse raw = Returns v ->
  Forall (fun item => isArray (recommendations item) = true) (risks v) ->
  normalizeRisksResponse (RisksResponse_js v) = Returns v.
Proof.
  intros Hv Hrec.
  apply normalizeRisksResponse_returns in Hv as [Hmap Hdl].
  assert (Hset : Forall settled (risks v)) by (eapply mapped_settled, Hmap).
  assert (Htr : truthy (document_level v) = true).
  { rewrite Hdl. destruct (truthy (suppliedAggregate raw)) eqn:E; [exact E|reflexivity]. }
  rewrite normalizeRisksResponse_list.
  destruct v as [items dl]. simpl in *.
  unfold listPayload, normalizeList, extractDocumentLevel, RisksResponse_js.
  cbn [isArray prop lookup_field String.eqb Ascii.eqb Bool.eqb default from_option
       Datatypes.id orb elements risks document_level].
  rewrite last_items_js. cbn [bind]. rewrite Htr. cbn [bind].
  unfold mapi. rewrite mapi_from_fixed by assumption. cbn [bind].
  rewrite Htr. reflexivity.
Qed.

(** C9, amended. Normalising a produced value again reproduces it (a) for
    the risk list, whenever every produced item has an array of
    recommendations, and (b) for the summary, whenever the payload took the
    legacy flat-summary branch, or the structured branch with a summary or
    an executive summary that is neither [null] nor missing. *)
Theorem renormalize_reproduces :
  (forall (raw : JValue) (v : RisksResponse),
     normalizeRisksResponse raw = Returns v ->
     Forall (fun item => isArray (recommendations item) = true) (risks v) ->
     normalizeRisksResponse (RisksResponse_js v) = Returns v) /\
  (forall raw v : JValue,
     normalizeSummarizeResponse raw = Returns v ->
     legacy raw = true \/
     (structured raw = true /\
      nullish (prop raw "summary" ?? prop raw "executive_summary") = false) ->
     normalizeSummarizeResponse v = Returns v).
Proof. split; [exact risks_renormalize | exact summary_renormalize]. Qed.

Lemma renormalize_reproduces_witness :
  normalizeRisksResponse (RisksResponse_js sampleAssessment) = Returns sampleAssessment /\
  (exists v, normalizeSummarizeResponse legacySummary = Returns v /\
             normalizeSummarizeResponse v = Returns v) /\
  (exists v, normalizeSummarizeResponse structuredSummary = Returns v /\
             normalizeSummarizeResponse v = Returns v).
Proof.
  destruct renormalize_reproduces as [HR HS].
  split; [|split].
  - apply (HR sampleRisks sampleAssessment eq_refl).
    apply List.Forall_cons; [reflexivity|].
    apply List.Forall_cons; [reflexivity|apply List.Forall_nil].
  - eexists. split; [vm_compute; reflexivity|].
    apply (HS legacySummary); [vm_compute; reflexivity|left; reflexivity].
  - eexists. split; [vm_compute; reflexivity|].
    apply (HS structuredSummary); [vm_compute; reflexivity|right; split; reflexivity].
Defined.

End Renormalize.

(** ** Properties of the heuristic risk synthesiser *)

Section Synthesizer.
Import Js Api Obs Dashboard.

Lemma scanPoints_nothing (points : list string) (i : nat) (st : state) :
  Forall (fun pt => findKeywords pt = []) points ->
  scanPoints i points st = st.
Proof.
  revert i. induction points as [|pt rest IH]; intros i Hnone; simpl; [reflexivity|].
  destruct (length st.1 <? 8)%nat; [|reflexivity].
  rewrite (List.Forall_inv Hnone). simpl. apply IH, (List.Forall_inv_tail Hnone).
Qed.

(** C5. The synthesiser returns at least one item for every summary text
    and every list of points; when no keyword category is found in the
    summary or in any point, it returns exactly the generic item, with
    score 10, severity Low and the label "No obvious high-risk clauses
    detected". *)
Theorem synthesizer_never_empty (summaryText : string) (points : list string) :
  (1 <= length (risks (generateHeuristicRisks summaryText points)))%nat /\
  (findKeywords summaryText = [] ->
   Forall (fun pt => findKeywords pt = []) points ->
   exists item : RiskItem,
     risks (generateHeuristicRisks summaryText points) = [item] /\
     severity_score item = 10%Z /\
     provided_severity item = JStr "Low" /\
     label item = JStr "No obvious high-risk clauses detected").
Proof.
  split.
  - unfold generateHeuristicRisks. cbv zeta. cbn [risks].
    destruct (scanPoints 0 points (scanSummary summaryText ([], ∅))).1; simpl; lia.
  - intros Hs Hp. exists (genericItem summaryText points).
    unfold generateHeuristicRisks. cbv zeta. cbn [risks].
    rewrite (scanPoints_nothing points 0 _ Hp).
    unfold scanSummary. rewrite Hs.
    destruct (Str.nonempty summaryText); simpl; auto.
Qed.

Lemma synthesizer_never_empty_witness :
  exists item : RiskItem,
    risks (generateHeuristicRisks "The parties agree to meet." ["Signed in March."]) = [item] /\
    severity_score item = 10%Z.
Proof.
  destruct (proj2 (synthesizer_never_empty "The parties agree to meet." ["Signed in March."]))
    as (item & Hitem & Hscore & _).
  - vm_compute. reflexivity.
  - apply List.Forall_cons; [vm_compute; reflexivity|apply List.Forall_nil].
  - exists item. split; [exact Hitem|exact Hscore].
Defined.

(** *** Category exclusivity *)

Lemma chars_app (a b : string) : Str.chars (a ++ b) = (Str.chars a ++ Str.chars b)%list.
Proof. induction a as [|c a IH]; simpl; [reflexivity|]. unfold Str.chars in *. simpl. f_equal. exact IH. Qed.

Lemma str_chars (s : string) : Str.str (Str.chars s) = s.
Proof. apply string_of_list_ascii_of_string. Qed.

Lemma after_last_dash_app (p t : list ascii) :
  existsb is_dash t = false ->
  after_last_dash (p ++ "-"%char :: t) = t.
Proof.
  intros Ht. induction p as [|c p IH]; simpl.
  - rewrite Ht. reflexivity.
  - rewrite existsb_app. simpl. rewrite orb_true_r. exact IH.
Qed.

Lemma category_summaryItem (summaryText tag : string) :
  dashless tag -> category_of (summaryItem summaryText tag) = tag.
Proof.
  intros Hd. unfold summaryItem, category_of. destruct (severityForTag tag) as [l sc].
  cbn [Api.id].
  change (Str.chars ("heuristic-" ++ tag))
    with (Str.chars "heuristic" ++ "-"%char :: Str.chars tag)%list.
  rewrite after_last_dash_app by exact Hd. apply str_chars.
Qed.

Lemma category_pointItem (i : nat) (pt tag : string) :
  dashless tag -> category_of (pointItem i pt tag) = tag.
Proof.
  intros Hd. unfold pointItem, category_of. destruct (severityForTag tag) as [l sc].
  cbn [Api.id].
  rewrite (chars_app "heuristic-point-"), (chars_app (string_of_nat i)).
  change (Str.chars ("-" ++ tag)) with ("-"%char :: Str.chars tag).
  rewrite app_assoc, after_last_dash_app by exact Hd. apply str_chars.
Qed.

Lemma found_subset (low : string) (table : list (string * list string))
    (acc : list string) (x : string) :
  x ∈ fold_left (fun found '(tag, words) =>
                   if any_word low words then (found ++ [tag])%list else found)
                table acc ->
  x ∈ acc \/ x ∈ map fst table.
Proof.
  revert acc. induction table as [|[tag words] table IH]; intros acc Hx; simpl in *.
  - auto.
  - apply IH in Hx as [Hx|Hx].
    + destruct (any_word low words); [|auto].
      apply elem_of_app in Hx as [Hx|Hx]; [auto|].
      apply list_elem_of_singleton in Hx as ->. right. left.
    + right. right. exact Hx.
Qed.

Lemma unique_subset (seen l : list string) (x : string) : x ∈ unique seen l -> x ∈ l.
Proof.
  revert seen. induction l as [|y l IH]; intros seen Hx; simpl in Hx; [exact Hx|].
  destruct (bool_decide (y ∈ seen)).
  - right. eapply IH, Hx.
  - apply elem_of_cons in Hx as [->|Hx]; [left|right; eapply IH, Hx].
Qed.

Lemma kws_dashless : Forall dashless (map fst kws).
Proof. repeat (apply List.Forall_cons; [reflexivity|]). apply List.Forall_nil. Qed.

Lemma findKeywords_dashless (text tag : string) : tag ∈ findKeywords text -> dashless tag.
Proof.
  unfold findKeywords. intros H. apply unique_subset, found_subset in H as [H|H].
  - inversion H.
  - pose proof kws_dashless as Hk. rewrite List.Forall_forall in Hk.
    apply Hk, list_elem_of_In, H.
Qed.

Lemma visit_exclusive (item : string -> RiskItem) (st : state) (tag : string) :
  category_of (item tag) = tag -> exclusive st -> exclusive (visit item st tag).
Proof.
  intros Hc [Hnd Hused]. unfold visit.
  destruct (bool_decide (tag ∈ st.2)) eqn:E; [split; assumption|].
  apply bool_decide_eq_false in E.
  split; cbn [fst snd]; rewrite map_app; cbn [map]; rewrite Hc.
  - apply NoDup_app. split; [exact Hnd|]. split; [|apply NoDup_singleton].
    intros c Hin Hc'. apply list_elem_of_singleton in Hc' as ->. apply E, Hused, Hin.
  - intros c Hin. apply elem_of_app in Hin as [Hin|Hin].
    + apply elem_of_union_r, Hused, Hin.
    + apply list_elem_of_singleton in Hin as ->. apply elem_of_union_l, elem_of_singleton. reflexivity.
Qed.

Lemma fold_visit_exclusive (item : string -> RiskItem) (tags : list string) (st : state) :
  (forall tag, tag ∈ tags -> category_of (item tag) = tag) ->
  exclusive st -> exclusive (fold_left (visit item) tags st).
Proof.
  revert st. induction tags as [|tag tags IH]; intros st Hc Hst; simpl; [exact Hst|].
  apply IH.
  - intros t Ht. apply Hc. right. exact Ht.
  - apply visit_exclusive; [apply Hc; left|exact Hst].
Qed.

Lemma scanPoints_exclusive (points : list string) (i : nat) (st : state) :
  exclusive st -> exclusive (scanPoints i points st).
Proof.
  revert i st. induction points as [|pt rest IH]; intros i st Hst; simpl; [exact Hst|].
  destruct (length st.1 <? 8)%nat; [|exact Hst].
  apply IH, fold_visit_exclusive; [|exact Hst].
  intros tag Htag. apply category_pointItem. eapply findKeywords_dashless, Htag.
Qed.

(** C6. In one run of the synthesiser the emitted items stand for pairwise
    distinct categories: a category emitted by the whole-summary scan is
    not emitted by the scan of the points, and a category emitted for one
    point is not emitted for a later point. *)
Theorem categories_exclusive (summaryText : string) (points : list string) :
  NoDup (map category_of (risks (generateHeuristicRisks summaryText points))).
Proof.
  unfold generateHeuristicRisks. cbv zeta. cbn [risks].
  assert (H : exclusive (scanPoints 0 points (scanSummary summaryText ([], ∅)))).
  { apply scanPoints_exclusive. unfold scanSummary.
    assert (H0 : exclusive ([], ∅)).
    { split; [constructor|]. intros c Hc. inversion Hc. }
    destruct (Str.nonempty summaryText); [|exact H0].
    apply fold_visit_exclusive; [|exact H0].
    intros tag Htag. apply category_summaryItem. eapply findKeywords_dashless, Htag. }
  destruct H as [Hnd _].
  destruct (scanPoints 0 points (scanSummary summaryText ([], ∅))).1 eqn:E.
  - apply NoDup_singleton.
  - exact Hnd.
Qed.

End Synthesizer.

(** ** The scenarios of the specification *)

Section Scenarios.
Import Js Api Obs Dashboard.

(** The synthesiser computes its aggregate from its items with the
    statements of the normaliser. *)
Lemma synthesizer_aggregate (summaryText : string) (points : list string) :
  let v := generateHeuristicRisks summaryText points in
  document_level v
    = DocumentLevel_js (computeDocumentLevel (map severity_score (risks v))).
Proof. reflexivity. Qed.

(** Scenario A: three sentences give three points. *)
Example scenario_A :
  exists v, normalizeSummarizeResponse legacySummary = Returns v /\
            prop v "executive_summary" = prop legacySummary "summary" /\
            exists pts, prop v "points" = JArr pts /\ length pts = 3%nat.
Proof.
  eexists. split; [vm_compute; reflexivity|]. split; [reflexivity|].
  eexists. split; reflexivity.
Qed.

(** Scenario B: a summary mentioning eviction and deposit gives two items
    and the aggregate 68, High. *)
Example scenario_B :
  let v := generateHeuristicRisks "Eviction follows a missed payment; the deposit is kept." [] in
  map category_of (risks v) = ["eviction"; "deposit"] /\
  map severity_score (risks v) = [85; 50]%Z /\
  document_level v
    = DocumentLevel_js (mkDocumentLevel 68 "High" (mkCounts 1 1 0)).
Proof. vm_compute. auto. Qed.

(** Scenario C: a trailing element with [document_level] is the aggregate
    and is not an item. *)
Example scenario_C :
  exists v,
    normalizeRisksResponse
      (JArr [JObj [("severity_score", JNum 90)]; JObj [("severity_score", JNum 30)];
             JObj [("document_level", JObj [("risk_tier", JStr "custom")])]])
      = Returns v /\
    length (risks v) = 2%nat /\
    document_level v = JObj [("risk_tier", JStr "custom")].
Proof. eexists. split; [vm_compute; reflexivity|]. split; reflexivity. Qed.

(** Scenario D: the empty object. *)
Example scenario_D :
  exists v, normalizeSummarizeResponse (JObj []) = Returns v /\
            prop v "executive_summary" = JStr "" /\ prop v "points" = JArr [].
Proof. eexists. split; [vm_compute; reflexivity|]. split; reflexivity. Qed.

End Scenarios.

(** ** Further properties of the risk-list normaliser *)

Section RisksShape.
Import Js Api Obs.

(** X1. A normalised assessment always carries a truthy aggregate: the
    aggregate the payload supplies when that one is truthy, and otherwise
    an object built by the normaliser, with a numeric
    [computed_risk_score], a [risk_tier] among Low, Medium and High, and
    [counts] that add up to the number of items. *)
Theorem aggregate_always_present (raw : JValue) (v : RisksResponse) :
  normalizeRisksResponse raw = Returns v ->
  truthy (document_level v) = true /\
  (truthy (suppliedAggregate raw) = true -> document_level v = suppliedAggregate raw) /\
  (truthy (suppliedAggregate raw) = false ->
   exists (score : JValue) (tier : string) (c : Counts),
     document_level v = JObj [("computed_risk_score", score);
                              ("risk_tier", JStr tier);
                              ("counts", Counts_js c)] /\
     isNumber score = true /\
     (tier = "Low" \/ tier = "Medium" \/ tier = "High") /\
     (high c + medium c + low c = length (risks v))%nat).
Proof.
  intros Hv. apply normalizeRisksResponse_returns in Hv as [_ Hdl].
  destruct (truthy (suppliedAggregate raw)) eqn:E; rewrite Hdl.
  - split; [exact E|]. split; [reflexivity|discriminate].
  - split; [reflexivity|]. split; [discriminate|]. intros _.
    set (scores := map severity_score (risks v)).
    pose proof (computeDocumentLevel_spec scores) as Hspec. cbv zeta in Hspec.
    destruct Hspec as (_ & _ & Htier & _ & _ & _ & Hsum).
    exists (JInt (computed_risk_score (computeDocumentLevel scores))),
           (risk_tier (computeDocumentLevel scores)),
           (counts (computeDocumentLevel scores)).
    split; [reflexivity|]. split; [reflexivity|]. split.
    + rewrite Htier. destruct (_ <=? 33)%Z; [auto|]. destruct (_ <=? 66)%Z; auto.
    + rewrite Hsum. subst scores. apply length_map.
Qed.

Lemma aggregate_always_present_witness :
  truthy (document_level sampleAssessment) = true /\
  prop (document_level sampleAssessment) "risk_tier" = JStr "High".
Proof.
  destruct (aggregate_always_present sampleRisks sampleAssessment eq_refl)
    as (Ht & _ & _).
  split; [exact Ht|reflexivity].
Defined.

Lemma mapi_from_lookup {A B} (f : A -> nat -> outcome B) (i : nat) (l : list A)
    (ys : list B) :
  mapi_from f i l = Returns ys ->
  length ys = length l /\
  forall k x, l !! k = Some x -> exists y, ys !! k = Some y /\ f x (i + k)%nat = Returns y.
Proof.
  revert i ys. induction l as [|x l IH]; intros i ys H; simpl in H.
  - injection H as <-. split; [reflexivity|]. intros k x Hk. discriminate.
  - apply bind_returns in H as (y & Hy & H).
    apply bind_returns in H as (ys' & Hys & H). injection H as <-.
    destruct (IH _ _ Hys) as [Hlen Hlook]. split; [simpl; congruence|].
    intros [|k] z Hk; simpl in Hk.
    + injection Hk as <-. exists y. rewrite Nat.add_0_r. auto.
    + destruct (Hlook k z Hk) as (w & Hw & Hf). exists w. split; [exact Hw|].
      rewrite <- Hf. f_equal. lia.
Qed.

(** X2. Normalisation keeps the number and the order of the candidates:
    item [k] is candidate [k] mapped with index [k], so it keeps the
    candidate's [id] and gets [risk-k] when the candidate has none. *)
Theorem items_follow_candidates (raw : JValue) (v : RisksResponse) :
  normalizeRisksResponse raw = Returns v ->
  length (risks v) = length (candidates raw) /\
  forall (k : nat) (r : JValue),
    candidates raw !! k = Some r ->
    exists item : RiskItem,
      risks v !! k = Some item /\
      mapRisk r k = Returns item /\
      id item = prop r "id" ?? JStr ("risk-" ++ string_of_nat k).
Proof.
  intros Hv. apply normalizeRisksResponse_returns in Hv as [Hmap _].
  apply mapi_from_lookup in Hmap as [Hlen Hlook]. split; [exact Hlen|].
  intros k r Hk. destruct (Hlook k r Hk) as (item & Hitem & Hf).
  exists item. split; [exact Hitem|]. split; [exact Hf|].
  unfold mapRisk, get in Hf. destruct (nullish r); simpl in Hf; [discriminate|].
  injection Hf as <-. reflexivity.
Qed.

Lemma items_follow_candidates_witness :
  length (risks sampleAssessment) = 2%nat /\
  exists item, risks sampleAssessment !! 1%nat = Some item /\ id item = JStr "risk-1".
Proof.
  destruct (items_follow_candidates sampleRisks sampleAssessment eq_refl) as [Hlen Hk].
  split; [exact Hlen|].
  destruct (Hk 1%nat (JObj [("provided_severity", JStr "Medium")]) eq_refl)
    as (item & Hitem & _ & Hid).
  exists item. split; [exact Hitem|exact Hid].
Defined.

Lemma to_uint_not_nil (n : nat) : Nat.to_uint n <> Decimal.Nil.
Proof.
  intros E. pose proof (DecimalNat.Unsigned.to_of (Nat.to_uint n)) as H.
  rewrite DecimalNat.Unsigned.of_to, E in H. discriminate H.
Qed.

Lemma string_of_nat_inj (a b : nat) : string_of_nat a = string_of_nat b -> a = b.
Proof.
  unfold string_of_nat. intros H.
  apply (f_equal NilZero.uint_of_string) in H.
  rewrite !NilZero.usu in H by apply to_uint_not_nil.
  injection H as H. apply DecimalNat.Unsigned.to_uint_inj, H.
Qed.

Lemma default_ids_distinct (arr : list JValue) (i : nat) (items : list RiskItem) :
  Forall (fun r => nullish (prop r "id") = true) arr ->
  mapi_from mapRisk i arr = Returns items ->
  NoDup (map id items) /\
  forall item, item ∈ items -> exists k, (i <= k)%nat /\ id item = JStr ("risk-" ++ string_of_nat k).
Proof.
  revert i items. induction arr as [|r arr IH]; intros i items Hnull H; simpl in H.
  - injection H as <-. split; [constructor|]. intros item Hin. inversion Hin.
  - apply bind_returns in H as (y & Hy & H).
    apply bind_returns in H as (ys & Hys & H). injection H as <-.
    destruct (IH (S i) ys (List.Forall_inv_tail Hnull) Hys) as [Hnd Hids].
    assert (Hid : id y = JStr ("risk-" ++ string_of_nat i)).
    { pose proof (List.Forall_inv Hnull) as Hr. cbv beta in Hr.
      unfold mapRisk, get in Hy. destruct (nullish r); simpl in Hy; [discriminate|].
      injection Hy as <-. simpl. unfold coalesce. rewrite Hr. reflexivity. }
    split.
    + simpl. apply NoDup_cons. split; [|exact Hnd].
      intros Hin. apply list_elem_of_fmap in Hin as (item & Hitem & Hin).
      destruct (Hids item Hin) as (k & Hk & Hidk).
      rewrite Hid, Hidk in Hitem. simpl in Hitem. injection Hitem as Hitem.
      apply string_of_nat_inj in Hitem. lia.
    + intros item Hin. apply elem_of_cons in Hin as [->|Hin].
      * exists i. split; [lia|exact Hid].
      * destruct (Hids item Hin) as (k & Hk & Hidk). exists k. split; [lia|exact Hidk].
Qed.

(** X3. When no candidate carries an [id], the identifiers the normaliser
    assigns are pairwise distinct. *)
Theorem assigned_ids_distinct (raw : JValue) (v : RisksResponse) :
  normalizeRisksResponse raw = Returns v ->
  Forall (fun r => nullish (prop r "id") = true) (candidates raw) ->
  NoDup (map id (risks v)).
Proof.
  intros Hv Hnull. apply normalizeRisksResponse_returns in Hv as [Hmap _].
  eapply default_ids_distinct; eassumption.
Qed.

Lemma assigned_ids_distinct_witness : NoDup (map id (risks sampleAssessment)).
Proof.
  apply (assigned_ids_distinct sampleRisks sampleAssessment eq_refl).
  apply List.Forall_cons; [reflexivity|].
  apply List.Forall_cons; [reflexivity|apply List.Forall_nil].
Defined.

(** X4. No item of a normalised assessment has a [null] or missing
    [id], severity label, [snippet], [short_risk], [explanation] or
    [citation]. *)
Theorem items_settled (raw : JValue) (v : RisksResponse) :
  normalizeRisksResponse raw = Returns v ->
  Forall (fun item =>
            nullish (id item) = false /\
            nullish (provided_severity item) = false /\
            nullish (severity_level item) = false /\
            nullish (snippet item) = false /\
            nullish (short_risk item) = false /\
            nullish (explanation item) = false /\
            nullish (citation item) = false) (risks v).
Proof.
  intros Hv. apply normalizeRisksResponse_returns in Hv as [Hmap _].
  apply mapped_settled in Hmap.
  eapply List.Forall_impl; [|exact Hmap].
  intros item (H1 & H2 & H3 & H4 & _ & H6 & H7 & H8). auto 10.
Qed.

Lemma items_settled_witness :
  Forall (fun item => nullish (snippet item) = false /\ nullish (short_risk item) = false)
         (risks sampleAssessment).
Proof.
  eapply List.Forall_impl;
    [|exact (items_settled sampleRisks sampleAssessment eq_refl)].
  intros item (_ & _ & _ & H4 & H5 & _). split; assumption.
Defined.

(** The extraction on an array that ends with an object holding a
    [document_level] key. *)
Lemma extract_sentinel (raw : JValue) (xs : list JValue)
    (fields : list (string * JValue)) (dl : JValue) :
  (if isArray raw then elements raw else elements (prop raw "risks"))
    = (xs ++ [JObj fields])%list ->
  lookup_field "document_level" fields = Some dl ->
  extractDocumentLevel raw = Returns (xs, dl).
Proof.
  intros Harr Hdl. unfold extractDocumentLevel. rewrite Harr.
  rewrite last_snoc. cbn [typeofObject has_key bind]. rewrite Hdl.
  rewrite bool_decide_eq_true_2 by eauto.
  rewrite removelast_last. simpl. rewrite Hdl. reflexivity.
Qed.

(** X5. A trailing element with a [document_level] key is never an item:
    the items come from the elements before it, and its [document_level],
    when truthy, is the aggregate as it came, also when the payload has a
    [document_level] of its own. *)
Theorem trailing_aggregate (raw : JValue) (xs : list JValue)
    (fields : list (string * JValue)) (dl : JValue) (v : RisksResponse) :
  (raw = JArr (xs ++ [JObj fields]) \/
   exists top, raw = JObj top /\ lookup_field "risks" top = Some (JArr (xs ++ [JObj fields]))) ->
  lookup_field "document_level" fields = Some dl ->
  normalizeRisksResponse raw = Returns v ->
  mapi mapRisk xs = Returns (risks v) /\
  length (risks v) = length xs /\
  (truthy dl = true -> document_level v = dl).
Proof.
  intros Hraw Hdl Hv.
  assert (Hlist : isArray (prop raw "risks") || isArray raw = true).
  { destruct Hraw as [->|(top & -> & Htop)]; [reflexivity|].
    simpl. rewrite Htop. reflexivity. }
  assert (Hext : extractDocumentLevel raw = Returns (xs, dl)).
  { apply (extract_sentinel raw xs fields dl); [|exact Hdl].
    destruct Hraw as [->|(top & -> & Htop)]; [reflexivity|].
    simpl. rewrite Htop. reflexivity. }
  apply normalizeRisksResponse_returns in Hv as [Hmap Hagg].
  unfold candidates, suppliedAggregate, listPayload in *.
  rewrite Hlist, Hext in *.
  split; [exact Hmap|]. split.
  - apply mapi_from_lookup in Hmap as [Hlen _]. exact Hlen.
  - intros Ht. rewrite Ht in Hagg. exact Hagg.
Qed.

Lemma trailing_aggregate_witness :
  exists v,
    normalizeRisksResponse
      (JArr [JObj [("severity_score", JNum 90)];
             JObj [("document_level", JStr "as supplied")]]) = Returns v /\
    length (risks v) = 1%nat /\ document_level v = JStr "as supplied".
Proof.
  eexists. split; [vm_compute; reflexivity|].
  destruct (trailing_aggregate
              (JArr ([JObj [("severity_score", JNum 90)]]
                     ++ [JObj [("document_level", JStr "as supplied")]]))
              [JObj [("severity_score", JNum 90)]]
              [("document_level", JStr "as supplied")] (JStr "as supplied") _
              (or_introl eq_refl) eq_refl eq_refl) as (_ & Hlen & Hdl).
  split; [exact Hlen|]. apply Hdl. reflexivity.
Defined.

(** X6. The three payload shapes give the same assessment for the same
    candidates: an object with a [risks] array and no truthy
    [document_level] normalises like the bare array, and an object with a
    keyed [risks] map normalises like the array of the map's values,
    whatever else the object holds. *)
Theorem shapes_agree (top : list (string * JValue)) :
  (forall xs, lookup_field "risks" top = Some (JArr xs) ->
              truthy (prop (JObj top) "document_level") = false ->
              normalizeRisksResponse (JObj top) = normalizeRisksResponse (JArr xs)) /\
  (forall kvs, lookup_field "risks" top = Some (JObj kvs) ->
               normalizeRisksResponse (JObj top) = normalizeRisksResponse (JArr (map snd kvs))).
Proof.
  split.
  - intros xs Hr Hd. rewrite !normalizeRisksResponse_list. unfold listPayload.
    cbn [prop isArray orb]. rewrite Hr. cbn [default from_option Datatypes.id isArray orb].
    unfold normalizeList, extractDocumentLevel.
    cbn [prop isArray elements]. rewrite Hr.
    cbn [default from_option Datatypes.id isArray elements].
    cbn [prop] in Hd. rewrite Hd.
    destruct (match last xs with
              | Some l => if typeofObject l then has_key "document_level" l else Returns false
              | None => Returns false
              end) as [[|]|]; reflexivity.
  - intros kvs Hr. rewrite (normalizeRisksResponse_list (JObj top)). unfold listPayload.
    cbn [prop isArray orb]. rewrite Hr. cbn [default from_option Datatypes.id isArray orb objectValues].
    rewrite normalizeRisksResponse_list. reflexivity.
Qed.

Lemma shapes_agree_witness :
  normalizeRisksResponse (JObj [("risks", sampleRisks)]) = normalizeRisksResponse sampleRisks /\
  normalizeRisksResponse
    (JObj [("risks", JObj [("a", JObj [("severity_score", JNum 90)])]);
           ("document_level", JStr "ignored")])
  = normalizeRisksResponse (JArr [JObj [("severity_score", JNum 90)]]).
Proof.
  split.
  - apply (proj1 (shapes_agree [("risks", sampleRisks)])); reflexivity.
  - apply (proj2 (shapes_agree
                    [("risks", JObj [("a", JObj [("severity_score", JNum 90)])]);
                     ("document_level", JStr "ignored")])
                 [("a", JObj [("severity_score", JNum 90)])]).
    reflexivity.
Defined.

End RisksShape.

(** ** The aggregate and the scores it is computed from *)

Section AggregateBounds.
Import Js Api Obs.

Lemma total_bounds (scores : list Z) (lo hi : Z) :
  Forall (fun s => (lo <= s <= hi)%Z) scores ->
  (Z.of_nat (length scores) * lo <= total scores <= Z.of_nat (length scores) * hi)%Z.
Proof.
  induction 1 as [|s l Hs _ IH]; unfold total in *; simpl length; simpl fold_right.
  - lia.
  - rewrite Nat2Z.inj_succ. lia.
Qed.

Lemma aggregate_within_scores_helper (scores : list Z) (lo hi : Z) :
  scores <> [] ->
  Forall (fun s => (lo <= s <= hi)%Z) scores ->
  (lo <= computed_risk_score (computeDocumentLevel scores) <= hi)%Z.
Proof.
  intros Hne Hall.
  destruct (computeDocumentLevel_spec scores) as (_ & Hmean & _).
  destruct (Hmean Hne) as [_ Hc].
  pose proof (total_bounds scores lo hi Hall) as Ht.
  set (c := computed_risk_score (computeDocumentLevel scores)) in *.
  set (n := Z.of_nat (length scores)) in *.
  assert (Hn : (0 < n)%Z).
  { subst n. destruct scores; [congruence|]. simpl length. lia. }
  split; nia.
Qed.

(** X7. The computed score of a non-empty list of scores in the safe
    range lies between the smallest and the largest of them: scores within
    0-100 give an aggregate within 0-100. *)
Theorem aggregate_within_scores (scores : list Z) (lo hi : Z) :
  scores <> [] ->
  safe_scores scores ->
  Forall (fun s => (lo <= s <= hi)%Z) scores ->
  (lo <= computed_risk_score (computeDocumentLevel scores) <= hi)%Z.
Proof. intros Hne _. apply aggregate_within_scores_helper, Hne. Qed.

Lemma aggregate_within_scores_witness :
  (0 <= computed_risk_score (computeDocumentLevel [90; 50; 15]) <= 100)%Z.
Proof.
  apply aggregate_within_scores; [discriminate|split; vm_compute; reflexivity|].
  repeat (apply List.Forall_cons; [lia|]). apply List.Forall_nil.
Defined.

End AggregateBounds.

(** ** Further properties of the summary normaliser *)

Section SummaryShape.
Import Js Api Obs Service Pre.

Lemma splitIntoPoints_string (s : string) (n : nat) :
  exists pts, splitIntoPoints (JStr s) n = Returns pts.
Proof.
  unfold splitIntoPoints. destruct (negb (truthy (JStr s))); [eauto|].
  destruct (1 <? _)%nat; [eauto|]. destruct (1 <? _)%nat; eauto.
Qed.

Lemma missingOr_cases (test : JValue -> bool) (v : JValue) :
  missingOr test v = true -> nullish v = true \/ (nullish v = false /\ test v = true).
Proof.
  unfold missingOr. destruct (nullish v); simpl; auto.
Qed.

(** X8. On a payload whose [executive_summary], [summary] and [points],
    where present, are a string, a string and an array, the summary
    normaliser returns, and the result has a string [executive_summary],
    an array [points] and a boolean [fallback]. *)
Theorem summary_well_typed (raw : JValue) :
  wellTypedSummary raw ->
  exists (v : JValue) (s : string) (pts : list JValue) (b : bool),
    normalizeSummarizeResponse raw = Returns v /\
    prop v "executive_summary" = JStr s /\
    prop v "points" = JArr pts /\
    prop v "fallback" = JBool b.
Proof.
  intros (Hes & Hsum & Hpts).
  destruct (isString raw) eqn:Hraw.
  { destruct raw as [| |b0|q0|s0|xs0|fs0]; try discriminate.
    unfold normalizeSummarizeResponse. cbn [prop isArray isString truthy orb].
    destruct (negb (s0 =? "")) eqn:E0; simpl negb; cbv iota.
    - destruct (splitIntoPoints_string s0 10) as [pts Hp].
      change (truthy (JStr s0)) with (negb (s0 =? "")) in Hp.
      unfold splitIntoPoints. unfold splitIntoPoints in Hp.
      change (truthy (JStr s0)) with (negb (s0 =? "")) in *.
      rewrite Hp. cbn [bind].
      do 4 eexists. split; [reflexivity|]. repeat split; reflexivity.
    - do 4 eexists. split; [reflexivity|]. repeat split; reflexivity. }
  apply missingOr_cases in Hes, Hsum, Hpts.
  unfold normalizeSummarizeResponse. rewrite Hraw.
  destruct (truthy raw) eqn:Ht; simpl negb; cbv iota.
  2:{ do 4 eexists. split; [reflexivity|]. repeat split; reflexivity. }
  destruct (prop raw "executive_summary") as [| |eb|eq|es|exs|efs] eqn:Ees;
    simpl in Hes; destruct Hes as [Hes|[_ Hes]]; try discriminate;
  destruct (prop raw "summary") as [| |sb|sq|ss|sxs|sfs] eqn:Esum;
    simpl in Hsum; destruct Hsum as [Hsum|[_ Hsum]]; try discriminate;
  destruct (prop raw "points") as [| |pb|pq|ps|pxs|pfs] eqn:Epts;
    simpl in Hpts; destruct Hpts as [Hpts|[_ Hpts]]; try discriminate;
  destruct (prop raw "fallback") as [| |fb|fq|fs|fxs|ffs] eqn:Efb;
  cbn [truthy isArray isString isBoolean orb negb nullish coalesce bind];
  repeat match goal with
  | |- context [splitIntoPoints (JStr ?s) ?n] =>
      let pts := fresh "pts" in let E := fresh "E" in
      destruct (splitIntoPoints_string s n) as [pts E]; rewrite E; cbn [bind]
  | |- context [if ?c then _ else _] => destruct c eqn:?; cbn [bind]
  end;
  do 4 eexists; (split; [reflexivity|]); repeat split; reflexivity.
Qed.

Lemma summary_well_typed_witness :
  exists (v : JValue) (s : string) (pts : list JValue) (b : bool),
    normalizeSummarizeResponse legacySummary = Returns v /\
    prop v "executive_summary" = JStr s /\
    prop v "points" = JArr pts /\
    prop v "fallback" = JBool b.
Proof.
  apply summary_well_typed. repeat split; reflexivity.
Defined.

End SummaryShape.

(** ** What the service resolves to *)

Section ServiceResults.
Import Js Api Obs Service Pre.

Lemma lookup_set_same (k : string) (v : JValue) (fields : list (string * JValue)) :
  lookup_field k (set_field k v fields) = Some v.
Proof.
  induction fields as [|[k' v'] fields IH]; simpl.
  - rewrite String.eqb_refl. reflexivity.
  - destruct (String.eqb k k') eqn:E; simpl; rewrite ?String.eqb_refl, ?E; auto.
Qed.

Lemma lookup_set_other (k k' : string) (v : JValue) (fields : list (string * JValue)) :
  k' <> k -> lookup_field k' (set_field k v fields) = lookup_field k' fields.
Proof.
  intros Hne. apply String.eqb_neq in Hne.
  induction fields as [|[k0 v0] fields IH]; simpl.
  - rewrite Hne. reflexivity.
  - destruct (String.eqb k k0) eqn:E; simpl.
    + apply String.eqb_eq in E. subst k0. rewrite Hne. reflexivity.
    + destruct (String.eqb k' k0); auto.
Qed.

Lemma prop_assign_same (o : list (string * JValue)) (k : string) (v : JValue) :
  prop (assign (JObj o) k v) k = v.
Proof. simpl. rewrite lookup_set_same. reflexivity. Qed.

Lemma prop_assign_other (o : list (string * JValue)) (k k' : string) (v : JValue) :
  k' <> k -> prop (assign (JObj o) k v) k' = prop (JObj o) k'.
Proof. intros Hne. simpl. rewrite lookup_set_other by exact Hne. reflexivity. Qed.

(** The summary normaliser returns an object whose [doc_id], if any, is the
    payload's. *)
Lemma summary_object (raw n : JValue) :
  normalizeSummarizeResponse raw = Returns n ->
  exists fields, n = JObj fields /\
    (prop n "doc_id" = prop raw "doc_id" \/ prop n "doc_id" = JUndefined).
Proof.
  unfold normalizeSummarizeResponse.
  destruct (negb (truthy raw)).
  { intros H. injection H as <-. eexists. split; [reflexivity|]. right. reflexivity. }
  destruct (truthy (prop raw "executive_summary") || isArray (prop raw "points")).
  { intros H. apply bind_returns in H as (p & _ & H). injection H as <-.
    eexists. split; [reflexivity|]. left. reflexivity. }
  destruct (isString (prop raw "summary")).
  { intros H. apply bind_returns in H as (p & _ & H). injection H as <-.
    eexists. split; [reflexivity|]. left. reflexivity. }
  destruct (isString raw).
  { intros H. apply bind_returns in H as (p & _ & H). injection H as <-.
    eexists. split; [reflexivity|]. right. reflexivity. }
  intros H. apply bind_returns in H as (p & _ & H). injection H as <-.
  eexists. split; [reflexivity|]. right. reflexivity.
Qed.

Lemma truthy_prop_object (raw : JValue) (k : string) :
  truthy (prop raw k) = true -> truthy raw = true.
Proof. destruct raw; simpl; try discriminate; reflexivity. Qed.

(** X9. What [summarize] resolves to is the normalised summary with, at
    most, its [doc_id] changed; whenever the payload has a truthy
    [doc_id], the result carries it. *)
Theorem summarize_keeps_doc_id (raw v : JValue) :
  summarizeResult raw = Returns v ->
  exists n : JValue,
    normalizeSummarizeResponse raw = Returns n /\
    (forall k, k <> "doc_id" -> prop v k = prop n k) /\
    (truthy (prop raw "doc_id") = true -> prop v "doc_id" = prop raw "doc_id").
Proof.
  unfold summarizeResult. intros H. apply bind_returns in H as (n & Hn & H).
  injection H as <-. exists n. split; [exact Hn|].
  destruct (summary_object raw n Hn) as (fields & -> & Hid).
  unfold attachDocId.
  destruct (negb (truthy (prop (JObj fields) "doc_id")) && truthy raw
            && truthy (prop raw "doc_id")) eqn:E.
  - split.
    + intros k Hk. apply prop_assign_other, Hk.
    + intros _. apply prop_assign_same.
  - split; [reflexivity|]. intros Ht.
    rewrite Ht, (truthy_prop_object raw _ Ht), !andb_true_r in E.
    destruct Hid as [Hid|Hid]; [exact Hid|].
    rewrite Hid in E. discriminate E.
Qed.

Lemma summarize_keeps_doc_id_witness :
  exists v,
    summarizeResult (JObj [("doc_id", JStr "d1"); ("note", JStr "n")]) = Returns v /\
    prop v "doc_id" = JStr "d1".
Proof.
  eexists. split; [vm_compute; reflexivity|].
  destruct (summarize_keeps_doc_id (JObj [("doc_id", JStr "d1"); ("note", JStr "n")]) _ eq_refl)
    as (n & _ & _ & Hid).
  apply Hid. reflexivity.
Defined.

(** X10. What [getRisks] resolves to is an object whose [risks] is the
    array of the normalised items and whose [document_level] is the
    normalised aggregate; its [doc_id] is the payload's when that is
    truthy and is missing otherwise. *)
Theorem getRisks_shape (raw o : JValue) :
  getRisksResult raw = Returns o ->
  exists v : RisksResponse,
    normalizeRisksResponse raw = Returns v /\
    prop o "risks" = JArr (map RiskItem_js (risks v)) /\
    prop o "document_level" = document_level v /\
    prop o "doc_id" = (if truthy (prop raw "doc_id") then prop raw "doc_id" else JUndefined).
Proof.
  unfold getRisksResult. intros H. apply bind_returns in H as (v & Hv & H).
  injection H as <-. exists v. split; [exact Hv|].
  unfold attachDocId, RisksResponse_js.
  change (prop (JObj [("risks", JArr (map RiskItem_js (risks v)));
                      ("document_level", document_level v)]) "doc_id") with JUndefined.
  simpl negb. rewrite andb_true_l.
  destruct (truthy (prop raw "doc_id")) eqn:Ht.
  - rewrite (truthy_prop_object raw _ Ht). simpl andb. cbv iota.
    split; [|split]; [| |apply prop_assign_same];
      rewrite prop_assign_other by discriminate; reflexivity.
  - rewrite andb_false_r. repeat split; reflexivity.
Qed.

Lemma getRisks_shape_witness :
  exists o, getRisksResult sampleRisks = Returns o /\ isArray (prop o "risks") = true.
Proof.
  assert (H : exists o, getRisksResult sampleRisks = Returns o)
    by (eexists; vm_compute; reflexivity).
  destruct H as [o Ho]. exists o. split; [exact Ho|].
  destruct (getRisks_shape sampleRisks o Ho) as (v & _ & Hr & _).
  rewrite Hr. reflexivity.
Defined.

Lemma splitIntoPoints_nonempty (s : string) (n : nat) :
  s <> "" -> (0 < n)%nat ->
  exists pts, splitIntoPoints (JStr s) n = Returns pts /\ pts <> [].
Proof.
  intros Hs Hn. unfold splitIntoPoints.
  change (truthy (JStr s)) with (Str.nonempty s). rewrite (nonempty_true s Hs).
  simpl negb. cbv iota zeta.
  set (sentences := List.filter _ (map Str.trim (Str.split_sentences s))).
  set (parts := List.filter _ (map Str.trim (Str.split_separators s))).
  destruct (1 <? length sentences)%nat eqn:E1.
  - eexists. split; [reflexivity|]. apply Nat.ltb_lt in E1.
    destruct sentences as [|a l]; simpl in *; [lia|].
    destruct n; [lia|]. discriminate.
  - destruct (1 <? length parts)%nat eqn:E2.
    + eexists. split; [reflexivity|]. apply Nat.ltb_lt in E2.
      destruct parts as [|a l]; simpl in *; [lia|].
      destruct n; [lia|]. discriminate.
    + eexists. split; [reflexivity|]. discriminate.
Qed.

(** X11. A response body that is not JSON, or is the JSON [null], is
    handed on as its text: [summarize] then resolves to a summary whose
    executive summary is that text, with at least one point and
    [fallback] set, and the risk normaliser gives the empty assessment. *)
Theorem text_body_is_summary (JSON_parse : string -> option JValue) (text : string) :
  JSON_parse text = None \/ JSON_parse text = Some JNull ->
  text <> "" ->
  decodeBody JSON_parse text = JStr text /\
  (exists (v : JValue) (pts : list string),
     summarizeResult (decodeBody JSON_parse text) = Returns v /\
     prop v "executive_summary" = JStr text /\
     prop v "points" = points_js pts /\ pts <> [] /\
     prop v "fallback" = JBool true) /\
  normalizeRisksResponse (decodeBody JSON_parse text) = Returns empty.
Proof.
  intros Hparse Htext.
  assert (Hd : decodeBody JSON_parse text = JStr text).
  { unfold decodeBody, safeJsonParse. destruct Hparse as [-> | ->]; reflexivity. }
  rewrite Hd. split; [reflexivity|]. split.
  - destruct (splitIntoPoints_nonempty text 10 Htext ltac:(lia)) as (pts & Hp & Hne).
    unfold summarizeResult, normalizeSummarizeResponse.
    change (truthy (JStr text)) with (Str.nonempty text). rewrite (nonempty_true text Htext).
    cbn [negb prop truthy isArray isString orb]. rewrite Hp. cbn [bind].
    unfold attachDocId. change (prop (JStr text) "doc_id") with JUndefined.
    cbn [truthy]. rewrite andb_false_r.
    eexists. exists pts. split; [reflexivity|].
    split; [reflexivity|]. split; [reflexivity|]. split; [exact Hne|reflexivity].
  - apply unrecognised_is_empty; reflexivity.
Qed.

Lemma text_body_is_summary_witness :
  decodeBody (fun _ => None) "Service unavailable" = JStr "Service unavailable".
Proof.
  apply (text_body_is_summary (fun _ => None) "Service unavailable");
    [left; reflexivity|discriminate].
Defined.

End ServiceResults.

(** ** The points derived from a summary text *)

Section Points.
Import Js Api Obs Dashboard Pre.

Lemma chars_str (l : list ascii) : Str.chars (Str.str l) = l.
Proof. apply list_ascii_of_string_of_list_ascii. Qed.

Lemma drop_space_head (l : list ascii) :
  match Str.drop_space l with
  | [] => True
  | c :: _ => Str.is_space c = false
  end.
Proof.
  induction l as [|c l IH]; simpl; [exact I|].
  destruct (Str.is_space c) eqn:E; [exact IH|exact E].
Qed.

Lemma drop_space_suffix (l : list ascii) : exists p, l = (p ++ Str.drop_space l)%list.
Proof.
  induction l as [|c l [p Hp]]; simpl.
  - exists []. reflexivity.
  - destruct (Str.is_space c).
    + exists (c :: p). simpl. f_equal. exact Hp.
    + exists []. reflexivity.
Qed.

Lemma trim_trimmed (s : string) : trimmed (Str.trim s).
Proof.
  unfold trimmed, Str.trim. rewrite chars_str. unfold Str.trim_chars.
  set (a := Str.drop_space (Str.chars s)).
  pose proof (drop_space_head (Str.chars s)) as Ha. fold a in Ha.
  pose proof (drop_space_head (rev a)) as Hb.
  destruct (drop_space_suffix (rev a)) as [p Hp].
  set (b := Str.drop_space (rev a)) in *.
  split.
  - destruct (rev b) as [|c r] eqn:Er; [exact I|].
    assert (Ea : a = (rev b ++ rev p)%list).
    { rewrite <- (rev_involutive a), Hp, rev_app_distr. reflexivity. }
    rewrite Er in Ea. rewrite Ea in Ha. exact Ha.
  - rewrite rev_involutive. exact Hb.
Qed.

(** X12. On a string, [splitIntoPoints] returns; it gives at most
    [maxPoints] points (one, if [maxPoints] is 0), and no point has leading
    or trailing white space. *)
Theorem points_trimmed_and_bounded (s : string) (maxPoints : nat) :
  exists pts : list string,
    splitIntoPoints (JStr s) maxPoints = Returns pts /\
    (length pts <= Nat.max 1 maxPoints)%nat /\
    Forall trimmed pts.
Proof.
  unfold splitIntoPoints. destruct (negb (truthy (JStr s))).
  { exists []. split; [reflexivity|]. split; [simpl; lia|constructor]. }
  cbv zeta.
  set (sentences := List.filter _ (map Str.trim (Str.split_sentences s))).
  set (parts := List.filter _ (map Str.trim (Str.split_separators s))).
  assert (Hclean : forall l, (length (map cleanup (take maxPoints l)) <= Nat.max 1 maxPoints)%nat
                             /\ Forall trimmed (map cleanup (take maxPoints l))).
  { intros l. split.
    - rewrite length_map, length_take. lia.
    - apply List.Forall_forall. intros x Hx. apply in_map_iff in Hx as (y & <- & _).
      apply trim_trimmed. }
  destruct (1 <? length sentences)%nat; [eexists; split; [reflexivity|apply Hclean]|].
  destruct (1 <? length parts)%nat; [eexists; split; [reflexivity|apply Hclean]|].
  eexists. split; [reflexivity|]. split; [simpl; lia|].
  apply List.Forall_cons; [apply trim_trimmed|apply List.Forall_nil].
Qed.

Lemma chunk_loop_length (room i : nat) (summary : string) :
  (length (chunk_loop room i summary) <= room)%nat.
Proof.
  revert i. induction room as [|room IH]; intros i; simpl; [lia|].
  destruct (i <? String.length summary)%nat; simpl; [|lia].
  specialize (IH (i + 120)%nat). lia.
Qed.

Lemma string_length_pos (s : string) : s <> "" -> (0 < String.length s)%nat.
Proof. destruct s; [congruence|simpl; lia]. Qed.

(** X13. [formatSummaryPoints] gives at most 12 points, and gives none
    only for the empty summary. *)
Theorem formatSummaryPoints_bounds (summary : string) :
  (length (formatSummaryPoints summary) <= 12)%nat /\
  (formatSummaryPoints summary = [] <-> summary = "").
Proof.
  unfold formatSummaryPoints, Str.nonempty.
  destruct (String.eqb_spec summary "") as [->|Hne]; simpl negb; cbv iota.
  { split; [simpl; lia|]. split; reflexivity. }
  cbv zeta.
  set (sentences := List.filter _ (map Str.trim (Str.split_sentences summary))).
  set (parts := List.filter _ (map Str.trim (Str.split_separators summary))).
  destruct (2 <=? length sentences)%nat eqn:E1.
  { apply Nat.leb_le in E1. split; [rewrite length_take; lia|].
    split; [|congruence]. destruct sentences; simpl in *; [lia|discriminate]. }
  destruct (2 <=? length parts)%nat eqn:E2.
  { apply Nat.leb_le in E2. split; [rewrite length_take; lia|].
    split; [|congruence]. destruct parts; simpl in *; [lia|discriminate]. }
  split; [apply chunk_loop_length|]. split; [|congruence].
  simpl. pose proof (string_length_pos summary Hne) as Hlen.
  apply Nat.ltb_lt in Hlen. rewrite Hlen. discriminate.
Qed.

Lemma formatSummaryPoints_bounds_witness :
  formatSummaryPoints "Rent is due" <> [].
Proof.
  intros H. apply (proj2 (formatSummaryPoints_bounds "Rent is due")) in H. discriminate H.
Defined.

End Points.

(** ** Further properties of the synthesiser *)

Section SynthesizerMore.
Import Js Api Obs Dashboard Pre.

Lemma any_word_spec (low : string) (words : list string) :
  any_word low words = true <-> exists w, w ∈ words /\ Str.includes low w = true.
Proof.
  induction words as [|w words IH]; simpl.
  - split; [discriminate|]. intros (w & Hw & _). inversion Hw.
  - destruct (Str.includes low w) eqn:E.
    + split; [|reflexivity]. intros _. exists w. split; [left|exact E].
    + rewrite IH. split.
      * intros (w' & Hw' & H). exists w'. split; [right; exact Hw'|exact H].
      * intros (w' & Hw' & H). apply elem_of_cons in Hw' as [->|Hw']; [congruence|eauto].
Qed.

Lemma found_spec (low : string) (table : list (string * list string)) (acc : list string) :
  fold_left (fun found '(tag, words) =>
               if any_word low words then (found ++ [tag])%list else found)
            table acc
  = (acc ++ map fst (List.filter (fun p => any_word low p.2) table))%list.
Proof.
  revert acc. induction table as [|[tag words] table IH]; intros acc; simpl.
  - rewrite app_nil_r. reflexivity.
  - rewrite IH. destruct (any_word low words); simpl; [|reflexivity].
    rewrite <- app_assoc. reflexivity.
Qed.

Lemma unique_spec (seen l : list string) (x : string) :
  x ∈ unique seen l <-> x ∈ l /\ x ∉ seen.
Proof.
  revert seen. induction l as [|y l IH]; intros seen; simpl.
  - split; [intros H; inversion H|intros [H _]; inversion H].
  - destruct (bool_decide (y ∈ seen)) eqn:E.
    + apply bool_decide_eq_true in E. rewrite IH. split.
      * intros [H1 H2]. split; [right; exact H1|exact H2].
      * intros [H1 H2]. split; [|exact H2].
        apply elem_of_cons in H1 as [->|H1]; [contradiction|exact H1].
    + apply bool_decide_eq_false in E. rewrite elem_of_cons, IH. split.
      * intros [->|[H1 H2]].
        -- split; [left|exact E].
        -- split; [right; exact H1|]. intros H. apply H2. right. exact H.
      * intros [H1 H2]. apply elem_of_cons in H1 as [->|H1]; [left; reflexivity|].
        destruct (decide (x = y)) as [->|Hne]; [left; reflexivity|].
        right. split; [exact H1|]. intros H. apply elem_of_cons in H as [?|?]; contradiction.
Qed.

Lemma unique_NoDup (seen l : list string) :
  NoDup (unique seen l) /\ forall x, x ∈ unique seen l -> x ∉ seen.
Proof.
  revert seen. induction l as [|y l IH]; intros seen; simpl.
  - split; [constructor|]. intros x H. inversion H.
  - destruct (bool_decide (y ∈ seen)) eqn:E; [apply IH|].
    apply bool_decide_eq_false in E. destruct (IH (y :: seen)) as [Hnd Hout]. split.
    + apply NoDup_cons. split; [|exact Hnd]. intros H. apply (Hout y H). left.
    + intros x Hx. apply elem_of_cons in Hx as [->|Hx]; [exact E|].
      intros H. apply (Hout x Hx). right. exact H.
Qed.

(** X14. [findKeywords] returns the categories, each once, that have a
    keyword occurring in the lower-cased text, and no other tag. *)
Theorem findKeywords_spec (text tag : string) :
  NoDup (findKeywords text) /\
  (tag ∈ findKeywords text <->
   exists words w, (tag, words) ∈ kws /\ w ∈ words /\
                   Str.includes (Str.toLowerCase text) w = true).
Proof.
  split; [apply unique_NoDup|].
  unfold findKeywords. cbv zeta. rewrite unique_spec, found_spec, app_nil_l. split.
  - intros [H _]. apply list_elem_of_fmap in H as ([t words] & -> & H).
    apply list_elem_of_In, filter_In in H as [Hin Hany]. apply list_elem_of_In in Hin.
    apply any_word_spec in Hany as (w & Hw & Hinc). simpl. eauto.
  - intros (words & w & Hkw & Hw & Hinc). split; [|intros H; inversion H].
    apply list_elem_of_fmap. exists (tag, words). split; [reflexivity|].
    apply list_elem_of_In, filter_In. split; [apply list_elem_of_In, Hkw|].
    apply any_word_spec. eauto.
Qed.

Lemma findKeywords_spec_witness :
  "deposit" ∈ findKeywords "The Security Deposit is kept.".
Proof.
  apply (proj2 (findKeywords_spec "The Security Deposit is kept." "deposit")).
  exists ["deposit"; "security deposit"], "deposit".
  split; [|split; [left|vm_compute; reflexivity]].
  do 2 right. left.
Defined.

Lemma severityForTag_band (tag : string) :
  (severityForTag tag).1 = tierOf (severityForTag tag).2 /\
  (20 <= (severityForTag tag).2 <= 85)%Z.
Proof.
  unfold severityForTag.
  repeat match goal with |- context [if ?c then _ else _] => destruct c end;
    simpl; split; (reflexivity || lia).
Qed.

Lemma summaryItem_banded (s tag : string) : banded (summaryItem s tag).
Proof.
  unfold banded, summaryItem. pose proof (severityForTag_band tag) as [H1 H2].
  destruct (severityForTag tag) as [l sc]. simpl in *. rewrite H1. split; [reflexivity|lia].
Qed.

Lemma pointItem_banded (i : nat) (pt tag : string) : banded (pointItem i pt tag).
Proof.
  unfold banded, pointItem. pose proof (severityForTag_band tag) as [H1 H2].
  destruct (severityForTag tag) as [l sc]. simpl in *. rewrite H1. split; [reflexivity|lia].
Qed.

Lemma fold_visit_Forall (P : RiskItem -> Prop) (item : string -> RiskItem)
    (tags : list string) (st : state) :
  (forall tag, tag ∈ tags -> P (item tag)) ->
  Forall P st.1 -> Forall P (fold_left (visit item) tags st).1.
Proof.
  revert st. induction tags as [|tag tags IH]; intros st Hitem Hst; simpl; [exact Hst|].
  apply IH; [intros t Ht; apply Hitem; right; exact Ht|].
  unfold visit. destruct (bool_decide (tag ∈ st.2)); [exact Hst|]. simpl.
  apply Forall_app. split; [exact Hst|].
  apply List.Forall_cons; [apply Hitem; left|apply List.Forall_nil].
Qed.

Lemma scanPoints_Forall (P : RiskItem -> Prop) (points : list string) (i : nat) (st : state) :
  (forall i pt tag, tag ∈ findKeywords pt -> P (pointItem i pt tag)) ->
  Forall P st.1 -> Forall P (scanPoints i points st).1.
Proof.
  intros Hitem. revert i st. induction points as [|pt rest IH]; intros i st Hst; simpl;
    [exact Hst|].
  destruct (length st.1 <? 8)%nat; [|exact Hst].
  apply IH, fold_visit_Forall; [|exact Hst]. intros tag Htag. apply Hitem, Htag.
Qed.

(** Every item of a run satisfies what the three kinds of item satisfy. *)
Lemma synthesised_Forall (P : RiskItem -> Prop) (s : string) (points : list string) :
  (forall tag, tag ∈ findKeywords s -> P (summaryItem s tag)) ->
  (forall i pt tag, tag ∈ findKeywords pt -> P (pointItem i pt tag)) ->
  P (genericItem s points) ->
  Forall P (risks (generateHeuristicRisks s points)).
Proof.
  intros Hs Hp Hg. unfold generateHeuristicRisks. cbv zeta. cbn [risks].
  assert (H : Forall P (scanPoints 0 points (scanSummary s ([], ∅))).1).
  { apply scanPoints_Forall; [exact Hp|]. unfold scanSummary.
    destruct (Str.nonempty s); [|constructor].
    apply fold_visit_Forall; [exact Hs|constructor]. }
  destruct (scanPoints 0 points (scanSummary s ([], ∅))).1 eqn:E.
  - apply List.Forall_cons; [exact Hg|apply List.Forall_nil].
  - exact H.
Qed.

(** X15. Every synthesised item has a score between 10 and 85, and its
    severity label is the band of its score; the aggregate of the
    synthesised assessment lies between 10 and 85 as well. *)
Theorem synthesised_items_banded (summaryText : string) (points : list string) :
  let v := generateHeuristicRisks summaryText points in
  Forall (fun item =>
            provided_severity item = JStr (tierOf (severity_score item)) /\
            (10 <= severity_score item <= 85)%Z) (risks v) /\
  exists d : DocumentLevel,
    document_level v = DocumentLevel_js d /\
    (10 <= computed_risk_score d <= 85)%Z /\
    risk_tier d = tierOf (computed_risk_score d).
Proof.
  intros v.
  assert (Hall : Forall banded (risks v)).
  { apply synthesised_Forall.
    - intros tag _. apply summaryItem_banded.
    - intros i pt tag _. apply pointItem_banded.
    - split; [reflexivity|simpl; lia]. }
  split; [exact Hall|].
  exists (computeDocumentLevel (map severity_score (risks v))).
  split; [reflexivity|]. split; [|reflexivity].
  apply aggregate_within_scores_helper.
  - subst v. unfold generateHeuristicRisks. cbv zeta. cbn [risks].
    destruct (scanPoints 0 points (scanSummary summaryText ([], ∅))).1; discriminate.
  - apply List.Forall_forall. intros x Hx. apply in_map_iff in Hx as (item & <- & Hin).
    rewrite List.Forall_forall in Hall. apply (Hall item Hin).
Qed.

End SynthesizerMore.

Section SynthesizerSize.
Import Js Api Obs Dashboard Pre.

Lemma findKeywords_in_table (text tag : string) :
  tag ∈ findKeywords text -> tag ∈ map fst kws.
Proof.
  unfold findKeywords. intros H. apply unique_subset, found_subset in H as [H|H];
    [inversion H|exact H].
Qed.

Lemma run_exclusive (summaryText : string) (points : list string) :
  exclusive (scanPoints 0 points (scanSummary summaryText ([], ∅))).
Proof.
  apply scanPoints_exclusive. unfold scanSummary.
  assert (H0 : exclusive ([], ∅)).
  { split; [constructor|]. intros c Hc. inversion Hc. }
  destruct (Str.nonempty summaryText); [|exact H0].
  apply fold_visit_exclusive; [|exact H0].
  intros tag Htag. apply category_summaryItem. eapply findKeywords_dashless, Htag.
Qed.

Lemma run_in_table (summaryText : string) (points : list string) :
  Forall (fun item => category_of item ∈ map fst kws)
         (scanPoints 0 points (scanSummary summaryText ([], ∅))).1.
Proof.
  apply scanPoints_Forall.
  - intros i pt tag Htag. rewrite category_pointItem.
    + eapply findKeywords_in_table, Htag.
    + eapply findKeywords_dashless, Htag.
  - unfold scanSummary. destruct (Str.nonempty summaryText); [|constructor].
    apply fold_visit_Forall; [|constructor].
    intros tag Htag. rewrite category_summaryItem.
    + eapply findKeywords_in_table, Htag.
    + eapply findKeywords_dashless, Htag.
Qed.

(** X16. A synthesised assessment has between 1 and 7 items, and their
    identifiers are pairwise distinct. *)
Theorem synthesised_size_and_ids (summaryText : string) (points : list string) :
  let v := generateHeuristicRisks summaryText points in
  (1 <= length (risks v) <= 7)%nat /\ NoDup (map id (risks v)).
Proof.
  intros v. subst v. unfold generateHeuristicRisks. cbv zeta. cbn [risks].
  destruct (run_exclusive summaryText points) as [Hnd _].
  pose proof (run_in_table summaryText points) as Htab.
  destruct (scanPoints 0 points (scanSummary summaryText ([], ∅))).1 as [|a l] eqn:E.
  - split; [simpl; lia|]. apply NoDup_singleton.
  - split.
    + split; [simpl; lia|].
      assert (Hsub : map category_of (a :: l) ⊆+ map fst kws).
      { apply NoDup_submseteq; [exact Hnd|].
        intros c Hc. apply list_elem_of_fmap in Hc as (item & -> & Hin).
        rewrite List.Forall_forall in Htab. apply Htab, list_elem_of_In, Hin. }
      apply submseteq_length in Hsub. rewrite length_map in Hsub.
      change (length (map fst kws)) with 7%nat in Hsub. exact Hsub.
    + apply (NoDup_fmap_1 id_category).
      replace (id_category <$> map id (a :: l)) with (map category_of (a :: l)); [exact Hnd|].
      clear. induction (a :: l) as [|x xs IH]; [reflexivity|].
      cbn [map fmap list_fmap]. f_equal. exact IH.
Qed.

Lemma fold_visit_fresh (item : string -> RiskItem) (tags : list string) (st : state) :
  NoDup tags ->
  (forall t, t ∈ tags -> t ∉ st.2) ->
  (fold_left (visit item) tags st).1 = (st.1 ++ map item tags)%list.
Proof.
  revert st. induction tags as [|tag tags IH]; intros st Hnd Hfresh; simpl.
  - rewrite app_nil_r. reflexivity.
  - apply NoDup_cons in Hnd as [Hnotin Hnd].
    unfold visit at 2. rewrite bool_decide_eq_false_2 by (apply Hfresh; left).
    rewrite IH; [simpl; rewrite <- app_assoc; reflexivity|exact Hnd|].
    intros t Ht. simpl. intros Hin. apply elem_of_union in Hin as [Hin|Hin].
    + apply elem_of_singleton in Hin. subst t. contradiction.
    + apply (Hfresh t); [right; exact Ht|exact Hin].
Qed.

Lemma fold_visit_prefix (item : string -> RiskItem) (tags : list string) (st : state) :
  exists more, (fold_left (visit item) tags st).1 = (st.1 ++ more)%list.
Proof.
  revert st. induction tags as [|tag tags IH]; intros st; simpl.
  - exists []. rewrite app_nil_r. reflexivity.
  - destruct (IH (visit item st tag)) as [more Hmore]. rewrite Hmore.
    unfold visit. destruct (bool_decide (tag ∈ st.2)); [eauto|].
    simpl. rewrite <- app_assoc. eauto.
Qed.

Lemma scanPoints_prefix (points : list string) (i : nat) (st : state) :
  exists more, (scanPoints i points st).1 = (st.1 ++ more)%list.
Proof.
  revert i st. induction points as [|pt rest IH]; intros i st; simpl.
  - exists []. rewrite app_nil_r. reflexivity.
  - destruct (length st.1 <? 8)%nat; [|exists []; rewrite app_nil_r; reflexivity].
    destruct (IH (S i) (fold_left (visit (pointItem i pt)) (findKeywords pt) st))
      as [more Hmore].
    destruct (fold_visit_prefix (pointItem i pt) (findKeywords pt) st) as [more' Hmore'].
    rewrite Hmore, Hmore', <- app_assoc. eauto.
Qed.

(** X17. When the summary text matches keyword categories, the synthesised
    assessment starts with one summary item per matched category, in the
    order of the keyword table; items found in the points follow them. *)
Theorem summary_items_first (summaryText : string) (points : list string) :
  findKeywords summaryText <> [] ->
  exists more : list RiskItem,
    risks (generateHeuristicRisks summaryText points)
    = (map (summaryItem summaryText) (findKeywords summaryText) ++ more)%list.
Proof.
  intros Hne.
  assert (Hs : Str.nonempty summaryText = true).
  { destruct summaryText; [exfalso; apply Hne; reflexivity|reflexivity]. }
  unfold generateHeuristicRisks. cbv zeta. cbn [risks].
  destruct (scanPoints_prefix points 0 (scanSummary summaryText ([], ∅))) as [more Hmore].
  rewrite Hmore. unfold scanSummary. rewrite Hs.
  rewrite fold_visit_fresh.
  - simpl fst. rewrite app_nil_l. exists more.
    destruct (findKeywords summaryText) as [|t ts]; [congruence|reflexivity].
  - apply unique_NoDup.
  - intros t _. simpl. apply not_elem_of_empty.
Qed.

Lemma summary_items_first_witness :
  exists more : list RiskItem,
    risks (generateHeuristicRisks "Eviction follows; the deposit is kept." ["Late fees apply."])
    = ([summaryItem "Eviction follows; the deposit is kept." "eviction";
        summaryItem "Eviction follows; the deposit is kept." "deposit"] ++ more)%list.
Proof.
  apply (summary_items_first "Eviction follows; the deposit is kept." ["Late fees apply."]).
  vm_compute. discriminate.
Defined.

End SynthesizerSize.

(** ** Citation markers *)

Section Citations.
Import Js Api Obs Dashboard Pre.

Lemma match_citation_skip (p l : list ascii) :
  existsb is_bracket p = false ->
  match_citation (p ++ l) = match_citation l.
Proof.
  induction p as [|c p IH]; intros Hp; [reflexivity|].
  simpl in Hp. apply orb_false_elim in Hp as [Hc Hp].
  cbn [app match_citation match_citation_here]. unfold is_bracket in Hc. rewrite Hc.
  apply IH, Hp.
Qed.

Lemma span_digits_app (d : list ascii) (c : ascii) (r : list ascii) :
  forallb is_digit d = true -> is_digit c = false ->
  span_digits (d ++ c :: r) = (d, c :: r).
Proof.
  intros Hd Hc. induction d as [|x d IH]; simpl.
  - rewrite Hc. reflexivity.
  - simpl in Hd. apply andb_prop in Hd as [Hx Hd]. rewrite Hx, (IH Hd). reflexivity.
Qed.

Lemma digits_of_uint (d : Decimal.uint) (acc : nat) :
  forallb is_digit (Str.chars (NilEmpty.string_of_uint d)) = true /\
  fold_left (fun a c => (10 * a + Z.of_nat (nat_of_ascii c - 48))%Z)
            (Str.chars (NilEmpty.string_of_uint d)) (Z.of_nat acc)
  = Z.of_nat (Nat.of_uint_acc d acc).
Proof.
  revert acc. induction d as [|d IH|d IH|d IH|d IH|d IH|d IH|d IH|d IH|d IH|d IH];
    intros acc; [split; reflexivity|..];
    (split; [apply (IH acc)|]);
    cbn [NilEmpty.string_of_uint Str.chars list_ascii_of_string fold_left Nat.of_uint_acc];
    rewrite <- (proj2 (IH _)); f_equal;
    match goal with
    | |- context [Z.of_nat (nat_of_ascii ?c - 48)] =>
        let v := eval vm_compute in (Z.of_nat (nat_of_ascii c - 48)) in
        change (Z.of_nat (nat_of_ascii c - 48)) with v
    end;
    rewrite Nat.tail_mul_spec; lia.
Qed.

Lemma string_of_nat_digits (n : nat) :
  Str.chars (string_of_nat n) <> [] /\
  forallb is_digit (Str.chars (string_of_nat n)) = true /\
  number_of_digits (Str.chars (string_of_nat n)) = Z.of_nat n.
Proof.
  unfold string_of_nat.
  assert (E : NilZero.string_of_uint (Nat.to_uint n) = NilEmpty.string_of_uint (Nat.to_uint n)).
  { pose proof (to_uint_not_nil n). destruct (Nat.to_uint n); [congruence|reflexivity..]. }
  rewrite E. destruct (digits_of_uint (Nat.to_uint n) 0) as [Hd Hv]. split; [|split].
  - pose proof (to_uint_not_nil n). destruct (Nat.to_uint n); [congruence|discriminate..].
  - exact Hd.
  - unfold number_of_digits. change 0%Z with (Z.of_nat 0). rewrite Hv.
    change (Nat.of_uint_acc (Nat.to_uint n) 0) with (Nat.of_uint (Nat.to_uint n)).
    rewrite DecimalNat.Unsigned.of_to. reflexivity.
Qed.

Lemma match_here_digits (d1 d2 r : list ascii) :
  d1 <> [] -> d2 <> [] ->
  forallb is_digit d1 = true -> forallb is_digit d2 = true ->
  match_citation_here ("["%char :: d1 ++ ":"%char :: d2 ++ "]"%char :: r)
  = Some (d1, d2).
Proof.
  intros N1 N2 H1 H2. cbn [match_citation_here]. rewrite Ascii.eqb_refl.
  rewrite (span_digits_app d1 ":" (d2 ++ "]"%char :: r) H1 eq_refl).
  destruct d1 as [|x d1]; [congruence|]. rewrite Ascii.eqb_refl.
  rewrite (span_digits_app d2 "]" r H2 eq_refl).
  destruct d2 as [|y d2]; [congruence|]. rewrite Ascii.eqb_refl. reflexivity.
Qed.

Lemma match_citation_eq (l : list ascii) :
  match_citation l =
  match match_citation_here l with
  | Some m => Some m
  | None => match l with [] => None | _ :: r => match_citation r end
  end.
Proof. destruct l; reflexivity. Qed.

(** X18. A marker [[a:b]] with [a] and [b] below 2^53 is read back: in a
    text with no opening bracket before the marker,
    [extractCitationFromText] gives [start] [a] and [end] [b], with [page]
    [null]. *)
Theorem citation_read_back (pre post : string) (a b : nat) :
  existsb is_bracket (Str.chars pre) = false ->
  (Z.of_nat a < 2 ^ 53)%Z ->
  (Z.of_nat b < 2 ^ 53)%Z ->
  extractCitationFromText
    (pre ++ "[" ++ string_of_nat a ++ ":" ++ string_of_nat b ++ "]" ++ post)
  = JObj [("page", JNull); ("start", JInt (Z.of_nat a)); ("end", JInt (Z.of_nat b))].
Proof.
  intros Hpre _ _. unfold extractCitationFromText.
  set (text := pre ++ "[" ++ string_of_nat a ++ ":" ++ string_of_nat b ++ "]" ++ post).
  assert (Hchars : Str.chars text
                   = (Str.chars pre ++ "["%char ::
                        Str.chars (string_of_nat a) ++ ":"%char ::
                        Str.chars (string_of_nat b) ++ "]"%char :: Str.chars post)%list).
  { subst text. rewrite !chars_app. reflexivity. }
  assert (Hne : Str.nonempty text = true).
  { apply nonempty_true. intros E. rewrite E in Hchars. destruct (Str.chars pre); discriminate. }
  rewrite Hne. simpl negb. cbv iota. rewrite Hchars, match_citation_skip by exact Hpre.
  destruct (string_of_nat_digits a) as (Na & Da & Va).
  destruct (string_of_nat_digits b) as (Nb & Db & Vb).
  rewrite match_citation_eq.
  rewrite (match_here_digits _ _ _ Na Nb Da Db). rewrite Va, Vb. reflexivity.
Qed.

Lemma citation_read_back_witness :
  extractCitationFromText "see [12:345] below"
  = JObj [("page", JNull); ("start", JInt 12); ("end", JInt 345)].
Proof.
  apply (citation_read_back "see " " below" 12 345); [reflexivity|lia|lia].
Defined.

(** X19. A text without an opening bracket has no citation: all three
    fields are [null]. *)
Theorem citation_needs_bracket (text : string) :
  existsb is_bracket (Str.chars text) = false ->
  extractCitationFromText text = no_citation.
Proof.
  intros H. unfold extractCitationFromText.
  destruct (negb (Str.nonempty text)); [reflexivity|].
  rewrite <- (app_nil_r (Str.chars text)), match_citation_skip by exact H. reflexivity.
Qed.

Lemma citation_needs_bracket_witness :
  extractCitationFromText "no marker here" = no_citation.
Proof. apply citation_needs_bracket. reflexivity. Defined.

End Citations.

(** ** Pacing of the calls *)

Section Pacing.
Import Service Pre.

Lemma ensureApiInterval_spacing (last now lateness : Z) :
  (0 <= lateness)%Z -> (last + 1000 <= ensureApiInterval last now lateness)%Z.
Proof.
  intros Hl. unfold ensureApiInterval, MIN_API_INTERVAL.
  destruct (Z.ltb_spec (now - last) 1000); lia.
Qed.

(** X20. Calls made one after the other are recorded at least 1000 ms
    apart, the first one at least 1000 ms after the initial
    [lastApiCallTime], whatever the clock shows when each call starts,
    provided no call resumes before its timer is due. *)
Theorem calls_are_spaced (lastApiCallTime : Z) (calls : list (Z * Z)) :
  Forall (fun call => (0 <= call.2)%Z) calls ->
  spaced lastApiCallTime (callTimes lastApiCallTime calls).
Proof.
  revert lastApiCallTime. induction calls as [|[now lateness] calls IH];
    intros last Hall; simpl; [exact I|].
  split.
  - apply ensureApiInterval_spacing. apply (List.Forall_inv Hall).
  - apply IH, (List.Forall_inv_tail Hall).
Qed.

Lemma calls_are_spaced_witness :
  spaced 0 (callTimes 0 [(5000, 3); (5010, 0); (5020, 7)]%Z).
Proof.
  apply calls_are_spaced.
  repeat (apply List.Forall_cons; [simpl; lia|]). apply List.Forall_nil.
Defined.

End Pacing.

(** ** Thresholds and display *)

Section DisplayProps.
Import Js Api Obs Dashboard Gauge Display Pre.

Lemma Qle_bool_inject (c k : Z) : Qle_bool (inject_Z c) (k # 1) = (c <=? k)%Z.
Proof. unfold Qle_bool, inject_Z. simpl. rewrite !Z.mul_1_r. reflexivity. Qed.

(** X21. The gauge colour, the tier of the dashboard and the colour of a
    score use the same two thresholds: up to 33 green and Low, up to 66
    amber and Medium, above red and High; on an integer score the tier is
    the one the aggregate computation assigns.  The gauge's progress is
    the score clamped to 0-100. *)
Theorem thresholds_agree (score : Q) :
  (Qle_bool score 33 = true ->
     getStrokeColor score = "#10B981" /\ (getTier score).1.1 = "Low" /\
     (severityColor score).1 = "text-neon-green") /\
  (Qle_bool score 33 = false -> Qle_bool score 66 = true ->
     getStrokeColor score = "#F59E0B" /\ (getTier score).1.1 = "Medium" /\
     (severityColor score).1 = "text-risk-medium") /\
  (Qle_bool score 66 = false ->
     getStrokeColor score = "#EF4444" /\ (getTier score).1.1 = "High" /\
     (severityColor score).1 = "text-risk-high") /\
  (forall c : Z, score = inject_Z c -> (getTier score).1.1 = tierOf c) /\
  (0 <= progress score /\ progress score <= 100)%Q /\
  (Qle_bool 0 score = true -> Qle_bool score 100 = true -> (progress score == score)%Q).
Proof.
  unfold getStrokeColor, getTier, severityColor.
  split; [intros ->; auto|].
  split; [intros -> ->; auto|].
  split.
  { intros H66. assert (H33 : Qle_bool score 33 = false).
    { destruct (Qle_bool score 33) eqn:E; [|reflexivity].
      apply Qle_bool_iff in E. assert (score <= 66)%Q by (eapply Qle_trans; [exact E|discriminate]).
      apply Qle_bool_iff in H. congruence. }
    rewrite H33, H66. auto. }
  split.
  { intros c ->. unfold tierOf.
    rewrite (Qle_bool_inject c 33), (Qle_bool_inject c 66).
    destruct (c <=? 33)%Z; [reflexivity|]. destruct (c <=? 66)%Z; reflexivity. }
  unfold progress, Math_max, Math_min. split.
  - destruct (Qle_bool 100 score) eqn:E1.
    + change (Qle_bool 100 0) with false. cbv iota. split; discriminate.
    + destruct (Qle_bool score 0) eqn:E2.
      * split; [apply Qle_refl|discriminate].
      * split.
        -- destruct (Qlt_le_dec score 0) as [Hlt|Hle]; [|exact Hle].
           apply Qlt_le_weak, Qle_bool_iff in Hlt. congruence.
        -- destruct (Qlt_le_dec 100 score) as [Hlt|Hle]; [|exact Hle].
           apply Qlt_le_weak, Qle_bool_iff in Hlt. congruence.
  - intros H0 H100. apply Qle_bool_iff in H0, H100.
    destruct (Qle_bool 100 score) eqn:E1.
    + apply Qle_bool_iff in E1. change (Qle_bool 100 0) with false. cbv iota.
      apply Qle_antisym; assumption.
    + destruct (Qle_bool score 0) eqn:E2; [|reflexivity].
      apply Qle_bool_iff in E2. apply Qle_antisym; assumption.
Qed.

Lemma thresholds_agree_witness :
  getStrokeColor 68 = "#EF4444" /\ (getTier 68).1.1 = tierOf 68.
Proof.
  destruct (thresholds_agree 68) as (_ & _ & Hhigh & Hint & _).
  split; [apply Hhigh; reflexivity|apply (Hint 68%Z); reflexivity].
Defined.

Lemma filter_others (flagId : string) (l : list string) :
  flagId ∉ l -> List.filter (fun id => negb (String.eqb id flagId)) l = l.
Proof.
  induction l as [|x l IH]; intros Hn; simpl; [reflexivity|].
  destruct (String.eqb_spec x flagId) as [->|Hne]; simpl.
  - exfalso. apply Hn. left.
  - f_equal. apply IH. intros H. apply Hn. right. exact H.
Qed.

Lemma elem_of_filter_others (flagId x : string) (l : list string) :
  x ∈ List.filter (fun id => negb (String.eqb id flagId)) l <-> x ∈ l /\ x <> flagId.
Proof.
  rewrite !list_elem_of_In, filter_In, negb_true_iff, String.eqb_neq. reflexivity.
Qed.

(** X22. [toggleFlag] flips the membership of the given flag and of no
    other, keeps a duplicate-free list duplicate-free, and applied twice to
    a list that does not hold the flag gives the list back. *)
Theorem toggleFlag_flips (flagId : string) (prev : list string) :
  (flagId ∈ toggleFlag flagId prev <-> flagId ∉ prev) /\
  (forall x, x <> flagId -> (x ∈ toggleFlag flagId prev <-> x ∈ prev)) /\
  (NoDup prev -> NoDup (toggleFlag flagId prev)) /\
  (flagId ∉ prev -> toggleFlag flagId (toggleFlag flagId prev) = prev).
Proof.
  unfold toggleFlag at 1 2 3. destruct (bool_decide (flagId ∈ prev)) eqn:E.
  - apply bool_decide_eq_true in E. split; [|split; [|split]].
    + rewrite elem_of_filter_others. split; [intros [_ H]; congruence|contradiction].
    + intros x Hx. rewrite elem_of_filter_others. split; [intros [H _]; exact H|auto].
    + intros Hnd. apply NoDup_ListNoDup, List.NoDup_filter, NoDup_ListNoDup, Hnd.
    + contradiction.
  - apply bool_decide_eq_false in E. split; [|split; [|split]].
    + split; [auto|]. intros _. apply elem_of_app. right. left.
    + intros x Hx. rewrite elem_of_app, list_elem_of_singleton. split; [intros [H|H]; [exact H|contradiction]|auto].
    + intros Hnd. apply NoDup_app. split; [exact Hnd|]. split; [|apply NoDup_singleton].
      intros x Hx Hx'. apply list_elem_of_singleton in Hx' as ->. contradiction.
    + intros _. unfold toggleFlag.
      rewrite (bool_decide_eq_false_2 (flagId ∈ prev) E).
      rewrite (bool_decide_eq_true_2 (flagId ∈ (prev ++ [flagId])%list))
        by (apply elem_of_app; right; left).
      rewrite List.filter_app, (filter_others flagId prev E). simpl.
      rewrite String.eqb_refl. simpl. apply app_nil_r.
Qed.

Lemma toggleFlag_flips_witness :
  toggleFlag "risk-1" (toggleFlag "risk-1" ["risk-0"]) = ["risk-0"].
Proof.
  apply (proj2 (proj2 (proj2 (toggleFlag_flips "risk-1" ["risk-0"])))).
  intros H. apply list_elem_of_singleton in H. discriminate H.
Defined.

Lemma computedScore_agrees (v : RisksResponse) :
  computedScoreFromRisks v
  = computed_risk_score (computeDocumentLevel (map severity_score (risks v))).
Proof.
  unfold computedScoreFromRisks, computeDocumentLevel. cbn [computed_risk_score].
  rewrite length_map. reflexivity.
Qed.

Lemma riskScore_computed (v : RisksResponse) :
  document_level v = DocumentLevel_js (computeDocumentLevel (map severity_score (risks v))) ->
  riskScore v = JInt (computedScoreFromRisks v) /\
  prop (document_level v) "risk_tier"
  = JStr (getTier (inject_Z (computedScoreFromRisks v))).1.1.
Proof.
  intros Hdl. rewrite computedScore_agrees. unfold riskScore, documentLevelScore.
  rewrite Hdl. split; [reflexivity|]. cbn [prop DocumentLevel_js lookup_field String.eqb
    Ascii.eqb Bool.eqb default from_option Datatypes.id risk_tier computeDocumentLevel].
  unfold getTier, tierOf. cbn [computed_risk_score].
  rewrite (Qle_bool_inject _ 33), (Qle_bool_inject _ 66).
  destruct (_ <=? 33)%Z; [reflexivity|]. destruct (_ <=? 66)%Z; reflexivity.
Qed.

(** X24. For an assessment that [normalizeRisksResponse] returns for a
    payload without an aggregate of its own, with scores in the safe range,
    the score the dashboard computes for display is the stored
    [computed_risk_score], which is also what [computedScoreFromRisks]
    recomputes from the items, and [getTier] of it is the stored
    [risk_tier]. *)
Theorem shown_score_is_stored (raw : JValue) (v : RisksResponse) :
  normalizeRisksResponse raw = Returns v ->
  truthy (suppliedAggregate raw) = false ->
  safe_scores (map severity_score (risks v)) ->
  riskScore v = JInt (computedScoreFromRisks v) /\
  prop (document_level v) "computed_risk_score" = riskScore v /\
  prop (document_level v) "risk_tier"
  = JStr (getTier (inject_Z (computedScoreFromRisks v))).1.1.
Proof.
  intros Hv Hnone _.
  apply normalizeRisksResponse_returns in Hv as [_ Hdl]. rewrite Hnone in Hdl.
  destruct (riskScore_computed v Hdl) as [Hscore Htier].
  split; [exact Hscore|]. split; [|exact Htier].
  rewrite Hscore, Hdl, computedScore_agrees. reflexivity.
Qed.

Lemma shown_score_is_stored_witness :
  riskScore sampleAssessment = JInt 70.
Proof.
  assert (Hsafe : safe_scores (map severity_score (risks sampleAssessment))).
  { split; vm_compute; reflexivity. }
  rewrite (proj1 (shown_score_is_stored sampleRisks sampleAssessment eq_refl eq_refl Hsafe)).
  reflexivity.
Defined.

End DisplayProps.

(** ** The summary the dashboard keeps *)

Section SummaryViewProps.
Import Js Api Obs Dashboard Service Display Pre.

Variable JSON_parse : string -> option JValue.
Variable String_of : JValue -> string.

Lemma isString_inv (x : JValue) : isString x = true -> exists s, x = JStr s.
Proof. destruct x; simpl; try discriminate. eauto. Qed.

Lemma summaryView_object (n : JValue) :
  nullish n = false ->
  exists (v : JValue) (s : string) (pts : list JValue) (b : bool),
    summaryView JSON_parse String_of n = Returns v /\
    prop v "executive_summary" = JStr s /\
    prop v "points" = JArr pts /\
    prop v "fallback" = JBool b.
Proof.
  intros Hn. unfold summaryView, get. rewrite Hn. cbn [bind].
  set (cand := safeParsePossibleJsonString JSON_parse _).
  set (es := if isString cand then cand
             else if isString (prop n "executive_summary")
                  then prop n "executive_summary" else JStr "").
  assert (Hes : exists s, es = JStr s).
  { subst es. destruct (isString cand) eqn:E1; [apply isString_inv, E1|].
    destruct (isString (prop n "executive_summary")) eqn:E2; [apply isString_inv, E2|eauto]. }
  destruct Hes as [s Hs]. rewrite Hs. cbn [isString negb andb].
  set (pts := if isArray (prop n "key_points") then prop n "key_points" else _).
  assert (Hp : exists l, pts = JArr l).
  { subst pts. destruct (prop n "key_points") eqn:Ek; cbn [isArray]; eauto;
      destruct (prop n "points") eqn:Ep; cbn [isArray]; eauto;
      destruct (prop n "summary") eqn:Esum; cbn [isString]; unfold strings_js; eauto. }
  destruct Hp as [l Hl]. rewrite Hl.
  do 4 eexists. split; [reflexivity|]. repeat split; reflexivity.
Qed.

Lemma summarizeResult_object (raw n : JValue) :
  summarizeResult raw = Returns n -> nullish n = false.
Proof.
  unfold summarizeResult. intros H. apply bind_returns in H as (m & Hm & H).
  injection H as <-. destruct (summary_object raw m Hm) as (fields & -> & _).
  unfold attachDocId. destruct (_ && _); reflexivity.
Qed.

(** X25. Whatever [summarize] resolved to, the summary the dashboard keeps
    has a string [executive_summary], an array [points] and a boolean
    [fallback], for every behaviour of [JSON.parse]. *)
Theorem kept_summary_well_typed (raw n : JValue) :
  summarizeResult raw = Returns n ->
  exists (v : JValue) (s : string) (pts : list JValue) (b : bool),
    summaryView JSON_parse String_of n = Returns v /\
    prop v "executive_summary" = JStr s /\
    prop v "points" = JArr pts /\
    prop v "fallback" = JBool b.
Proof.
  intros H. apply summaryView_object. eapply summarizeResult_object, H.
Qed.

(** X26. A textual executive summary is kept as its text also when the
    text is JSON: the parsed value is used only if it is a string, which
    parsing a text that starts with a brace or a bracket does not give. *)
Theorem kept_summary_is_text (n : JValue) (s : string) :
  prop n "executive_summary" = JStr s ->
  (startsWith (Str.trim s) "{" || startsWith (Str.trim s) "[" = true ->
   forall v, JSON_parse (Str.trim s) = Some v -> isString v = false) ->
  exists v : JValue,
    summaryView JSON_parse String_of n = Returns v /\
    prop v "executive_summary" = JStr s.
Proof.
  intros Hes Hparse.
  assert (Hn : nullish n = false) by (destruct n; simpl in *; congruence).
  unfold summaryView, get. rewrite Hn. cbn [bind]. rewrite Hes.
  cbn [coalesce nullish safeParsePossibleJsonString].
  destruct (negb (startsWith (Str.trim s) "{") && negb (startsWith (Str.trim s) "[")) eqn:E.
  - cbn [isString negb andb]. eexists. split; reflexivity.
  - assert (Hb : startsWith (Str.trim s) "{" || startsWith (Str.trim s) "[" = true).
    { destruct (startsWith (Str.trim s) "{"); [reflexivity|].
      destruct (startsWith (Str.trim s) "["); [reflexivity|discriminate]. }
    destruct (JSON_parse (Str.trim s)) as [v|] eqn:Ev.
    + rewrite (Hparse Hb v eq_refl). cbn [isString negb andb].
      eexists. split; reflexivity.
    + cbn [isString negb andb]. eexists. split; reflexivity.
Qed.

End SummaryViewProps.

Section SummaryViewWitness.
Import Js Api Obs Dashboard Service Display Pre.

Lemma kept_summary_well_typed_witness :
  exists (v : JValue) (s : string) (pts : list JValue) (b : bool),
    summaryView (fun _ => None) (fun _ => "") (JObj [("points", JNum 5)]) = Returns v /\
    prop v "executive_summary" = JStr s /\
    prop v "points" = JArr pts /\
    prop v "fallback" = JBool b.
Proof.
  assert (H : exists n, summarizeResult (JObj [("points", JNum 5)]) = Returns n)
    by (eexists; vm_compute; reflexivity).
  destruct H as [n Hn].
  destruct (kept_summary_well_typed (fun _ => None) (fun _ => "") _ n Hn)
    as (v & s & pts & b & _).
  do 4 eexists. split; [vm_compute; reflexivity|]. repeat split; reflexivity.
Defined.

Lemma kept_summary_is_text_witness :
  exists v : JValue,
    summaryView (fun _ => Some (JObj [])) (fun _ => "")
                (JObj [("executive_summary", JStr "{}")]) = Returns v /\
    prop v "executive_summary" = JStr "{}".
Proof.
  apply (kept_summary_is_text (fun _ => Some (JObj [])) (fun _ => "")
           (JObj [("executive_summary", JStr "{}")]) "{}" eq_refl).
  intros _ v Hv. injection Hv as <-. reflexivity.
Defined.

End SummaryViewWitness.

(** ** The progress timer *)

Section Timer.
Import Gauge Processing.

Lemma findStep_durations (e : Z) :
  findStep 0 0 durations e =
  if (e <=? 3000)%Z then 0%nat
  else if (e <=? 7000)%Z then 1%nat
  else if (e <=? 13000)%Z then 2%nat
  else if (e <=? 18000)%Z then 3%nat
  else 0%nat.
Proof. reflexivity. Qed.

Lemma progress_value (e : Z) :
  (0 <= e)%Z ->
  Qle_bool (inject_Z e / inject_Z totalDuration * 100) 100 = (e <=? 18000)%Z /\
  Qle_bool 100 (inject_Z e / inject_Z totalDuration * 100) = (18000 <=? e)%Z.
Proof.
  intros He. change totalDuration with 18000%Z.
  unfold Qle_bool, Qdiv, Qmult, Qinv, inject_Z. simpl.
  split.
  - match goal with |- (?a <=? ?b)%Z = _ => destruct (Z.leb_spec a b) end;
      destruct (Z.leb_spec e 18000); try reflexivity; lia.
  - match goal with |- (?a <=? ?b)%Z = _ => destruct (Z.leb_spec a b) end;
      destruct (Z.leb_spec 18000 e); try reflexivity; lia.
Qed.

(** X27. The progress timer: the step shown never goes back while the
    elapsed time is within the total of 18000 ms, and is the last step at
    the end; the callback reports completion exactly from its 180th run
    on, with a progress of 100 at that run and below 100 before. *)
Theorem timer_progress :
  (forall e e' : Z,
     (0 <= e <= e')%Z -> (e' <= totalDuration)%Z ->
     (findStep 0 0 durations e <= findStep 0 0 durations e' <= 3)%nat) /\
  (forall n : nat, finished (tickNumber n) = true <-> (179 <= n)%nat) /\
  (forall n : nat, (n < 179)%nat -> (progress (tickNumber n) < 100)%Q) /\
  (progress (tickNumber 179) == 100)%Q /\
  currentStep (tickNumber 179) = 3%nat.
Proof.
  split; [|split; [|split; [|split]]].
  - intros e e' He He'. change totalDuration with 18000%Z in He'.
    rewrite !findStep_durations.
    destruct (Z.leb_spec e 3000); destruct (Z.leb_spec e 7000);
      destruct (Z.leb_spec e 13000); destruct (Z.leb_spec e 18000);
      destruct (Z.leb_spec e' 3000); destruct (Z.leb_spec e' 7000);
      destruct (Z.leb_spec e' 13000); destruct (Z.leb_spec e' 18000); lia.
  - intros n. unfold tickNumber, tick. cbn [finished]. unfold Math_min.
    destruct (progress_value (100 * Z.of_nat n + 100) ltac:(lia)) as [H1 H2].
    rewrite H1. destruct (Z.leb_spec (100 * Z.of_nat n + 100) 18000) as [Hle|Hgt].
    + rewrite H2. rewrite Z.leb_le. lia.
    + change (Qle_bool 100 100) with true. split; [lia|reflexivity].
  - intros n Hn. unfold tickNumber, tick. cbn [progress]. unfold Math_min.
    destruct (progress_value (100 * Z.of_nat n + 100) ltac:(lia)) as [H1 H2].
    rewrite H1. destruct (Z.leb_spec (100 * Z.of_nat n + 100) 18000) as [Hle|Hgt]; [|lia].
    destruct (Qlt_le_dec (inject_Z (100 * Z.of_nat n + 100) / inject_Z totalDuration * 100) 100)
      as [Hlt|Hge]; [exact Hlt|].
    apply Qle_bool_iff in Hge. rewrite H2 in Hge. apply Z.leb_le in Hge. lia.
  - vm_compute. reflexivity.
  - reflexivity.
Qed.

Lemma timer_progress_witness :
  finished (tickNumber 179) = true /\
  (findStep 0 0 durations 3000 <= findStep 0 0 durations 3100 <= 3)%nat.
Proof.
  destruct timer_progress as (Hstep & Hfin & _).
  split.
  - apply Hfin. lia.
  - apply Hstep; [lia|vm_compute; discriminate].
Defined.

End Timer.
